(** * OSC-CV bridge firmware: a shallow embedding of [firmware/src/main.cpp]

    The firmware runs two loops.  Core 1 calls [ProcessMainSample] once per
    audio sample; core 0 runs [usb_loop], which parses 10-byte command
    packets from the host and sends 16-byte input packets back.  The two
    loops communicate through a handful of [volatile] globals.

    Integers are modelled as [Z] with every C conversion written out;
    arrays are lists updated by index; the shared globals are one record
    that both loops thread through their steps. *)

From Stdlib Require Import ZArith Lia List Bool.
From stdpp Require Import base list.
Import ListNotations.
Local Open Scope Z_scope.

(** ** Integer conversions *)

Definition to_uint8 (z : Z) : Z := z mod 256.
Definition to_uint16 (z : Z) : Z := z mod 65536.
Definition to_int16 (z : Z) : Z := (z + 32768) mod 65536 - 32768.

Definition is_uint8 (z : Z) : Prop := 0 <= z < 256.
Definition is_int16 (z : Z) : Prop := -32768 <= z <= 32767.

(** ** Configuration and protocol constants (main.cpp, lines 45-54) *)

Definition INPUT_REPORT_INTERVAL : Z := 48.
Definition SYNC_HOST_TO_DEVICE : Z := 0xC0.
Definition SYNC_DEVICE_TO_HOST : Z := 0xC1.
Definition OUTPUT_PACKET_SIZE : Z := 10.
Definition INPUT_PACKET_SIZE : Z := 16.

(** ** Shared state between cores (main.cpp, lines 33-42) *)

Record Shared := mkShared {
  target : list Z;         (* volatile int16_t target[4] *)
  target_flags : Z;        (* volatile uint8_t *)
  input_cv : list Z;       (* volatile int16_t input_cv[2] *)
  input_audio : list Z;    (* volatile int16_t input_audio[2] *)
  input_knobs : list Z;    (* volatile int16_t input_knobs[3] *)
  input_flags : Z;         (* volatile uint8_t *)
  inputs_ready : bool      (* volatile bool *)
}.

Definition shared_init : Shared :=
  mkShared [0; 0; 0; 0] 0 [0; 0] [0; 0] [0; 0; 0] 0 false.

Definition set_target_flags (v : Z) (g : Shared) : Shared :=
  mkShared (target g) (to_uint8 v) (input_cv g) (input_audio g)
           (input_knobs g) (input_flags g) (inputs_ready g).

Definition set_target (i : nat) (v : Z) (g : Shared) : Shared :=
  mkShared (<[i := to_int16 v]> (target g)) (target_flags g) (input_cv g)
           (input_audio g) (input_knobs g) (input_flags g) (inputs_ready g).

Definition set_inputs_ready (r : bool) (g : Shared) : Shared :=
  mkShared (target g) (target_flags g) (input_cv g) (input_audio g)
           (input_knobs g) (input_flags g) r.

(** The eight values of one input report, named after the locals of
    [usb_loop] that hold them (lines 198-205). *)
Record InputSnapshot := mkSnapshot {
  flags : Z;
  cv0 : Z; cv1 : Z;
  audio0 : Z; audio1 : Z;
  knob0 : Z; knob1 : Z; knob2 : Z
}.

(** ** SharedStateChannel operations

    The source has no functions of these names: they are the four access
    patterns of the globals, cut out of the two loops so that both the
    loops below and the statements about them can name them. *)

(** Lines 184-188: the five stores made for a complete packet. *)
Definition setTargets (f ch1 ch2 ch3 ch4 : Z) (g : Shared) : Shared :=
  set_target 3 ch4
    (set_target 2 ch3
      (set_target 1 ch2
        (set_target 0 ch1
          (set_target_flags f g)))).

(** Lines 104-108: what the audio callback reads. *)
Definition readTargets (g : Shared) : Z * list Z :=
  (target_flags g, target g).

(** Lines 126-135: all eight fields are stored, then the flag is raised. *)
Definition publishSnapshot (p : InputSnapshot) (g : Shared) : Shared :=
  mkShared (target g) (target_flags g)
           (<[1%nat := to_int16 (cv1 p)]> (<[0%nat := to_int16 (cv0 p)]> (input_cv g)))
           (<[1%nat := to_int16 (audio1 p)]>
              (<[0%nat := to_int16 (audio0 p)]> (input_audio g)))
           (<[2%nat := to_int16 (knob2 p)]>
              (<[1%nat := to_int16 (knob1 p)]>
                 (<[0%nat := to_int16 (knob0 p)]> (input_knobs g))))
           (to_uint8 (flags p))
           true.

(** The fields as [usb_loop] copies them into its locals. *)
Definition snapshot_of (g : Shared) : InputSnapshot :=
  mkSnapshot (input_flags g)
             (input_cv g !!! 0%nat) (input_cv g !!! 1%nat)
             (input_audio g !!! 0%nat) (input_audio g !!! 1%nat)
             (input_knobs g !!! 0%nat) (input_knobs g !!! 1%nat)
             (input_knobs g !!! 2%nat).

(** Lines 194-205: test the flag, clear it, copy the fields. *)
Definition takeSnapshotIfReady (g : Shared) : Shared * option InputSnapshot :=
  if inputs_ready g then
    let g' := set_inputs_ready false g in
    (g', Some (snapshot_of g'))
  else (g, None).

(** The array sizes of the declarations (lines 34-40). *)
Definition shared_wf (g : Shared) : Prop :=
  length (target g) = 4%nat /\ length (input_cv g) = 2%nat /\
  length (input_audio g) = 2%nat /\ length (input_knobs g) = 3%nat.

(** A report after the conversions made by the stores of lines 126-134
    (to [int16_t] fields and a [uint8_t] flags byte). *)
Definition as_stored (p : InputSnapshot) : InputSnapshot :=
  mkSnapshot (to_uint8 (flags p))
             (to_int16 (cv0 p)) (to_int16 (cv1 p))
             (to_int16 (audio0 p)) (to_int16 (audio1 p))
             (to_int16 (knob0 p)) (to_int16 (knob1 p)) (to_int16 (knob2 p)).

(** A report whose values already have the types of the globals. *)
Definition snapshot_typed (p : InputSnapshot) : Prop :=
  is_uint8 (flags p) /\
  is_int16 (cv0 p) /\ is_int16 (cv1 p) /\
  is_int16 (audio0 p) /\ is_int16 (audio1 p) /\
  is_int16 (knob0 p) /\ is_int16 (knob1 p) /\ is_int16 (knob2 p).

(** The targets hold [int16_t] values. *)
Definition targets_typed (g : Shared) : Prop := Forall is_int16 (target g).

Definition shared_inv (g : Shared) : Prop := shared_wf g /\ targets_typed g.

(** Whole publishes and whole takes, one after the other, with what each
    take returned.  These are the executions in which the stores of lines
    126-135 and the accesses of lines 194-205 never fall between one
    another; [cores_run] below steps through the two sequences one memory
    access at a time and has all the others. *)
Inductive chan_op :=
| Publish (p : InputSnapshot)
| Take.

Fixpoint chan_run (ops : list chan_op) (g : Shared)
  : Shared * list (option InputSnapshot) :=
  match ops with
  | [] => (g, [])
  | Publish p :: ops' => chan_run ops' (publishSnapshot p g)
  | Take :: ops' =>
    let (g1, r) := takeSnapshotIfReady g in
    let (g2, rs) := chan_run ops' g1 in
    (g2, r :: rs)
  end.





(** ** The two access sequences, one memory access at a time

    The globals are [volatile] and no lock is taken on either side, so
    each store of lines 126-135 (core 1) and each access of lines 194-205
    (core 0) is a step of its own, and the steps of the two cores can
    come in any order. *)















Fixpoint published (ops : list chan_op) : list InputSnapshot :=
  match ops with
  | [] => []
  | Publish p :: ops' => p :: published ops'
  | Take :: ops' => published ops'
  end.


(** ** FrameCodec *)

(** Lines 185-188: [(int16_t)(lo | (hi << 8))]. *)
Definition le_int16 (lo hi : Z) : Z := to_int16 (Z.lor lo (Z.shiftl hi 8)).

(** Lines 207-223: the 16-byte device-to-host packet. *)
Definition lo_byte (v : Z) : Z := to_uint8 (Z.land v 0xFF).
Definition hi_byte (v : Z) : Z := to_uint8 (Z.land (Z.shiftr v 8) 0xFF).

Definition encode (p : InputSnapshot) : list Z :=
  [ SYNC_DEVICE_TO_HOST; flags p;
    lo_byte (cv0 p); hi_byte (cv0 p);
    lo_byte (cv1 p); hi_byte (cv1 p);
    lo_byte (audio0 p); hi_byte (audio0 p);
    lo_byte (audio1 p); hi_byte (audio1 p);
    lo_byte (knob0 p); hi_byte (knob0 p);
    lo_byte (knob1 p); hi_byte (knob1 p);
    lo_byte (knob2 p); hi_byte (knob2 p) ].

(** The extraction of lines 184-188 applied at the offsets of the 16-byte
    layout: flags from byte 1, seven little-endian fields from byte 2 on.
    The firmware itself never parses this layout; the definition exists to
    state the round trip. *)
Definition decode_input_packet (pkt : list Z) : InputSnapshot :=
  mkSnapshot (pkt !!! 1%nat)
             (le_int16 (pkt !!! 2%nat) (pkt !!! 3%nat))
             (le_int16 (pkt !!! 4%nat) (pkt !!! 5%nat))
             (le_int16 (pkt !!! 6%nat) (pkt !!! 7%nat))
             (le_int16 (pkt !!! 8%nat) (pkt !!! 9%nat))
             (le_int16 (pkt !!! 10%nat) (pkt !!! 11%nat))
             (le_int16 (pkt !!! 12%nat) (pkt !!! 13%nat))
             (le_int16 (pkt !!! 14%nat) (pkt !!! 15%nat)).

(** ** Core 0: [usb_loop] (main.cpp, lines 158-230) *)

(** What [getchar_timeout_us(100)] returned: the SDK constant
    [PICO_ERROR_TIMEOUT], or any other [int]. *)
Inductive getchar_result :=
| Timeout
| Char (c : Z).

(** Locals of [usb_loop] together with the globals it touches. *)
Record Loop := mkLoop {
  pktBuf : list Z;   (* uint8_t pktBuf[OUTPUT_PACKET_SIZE] *)
  pktPos : Z;        (* uint8_t *)
  glob : Shared
}.

(** Which way the reader half of one iteration went.  [RxFrame] carries
    the values stored into [target_flags] and [target]. *)
Inductive rx_event :=
| RxNone                              (* timeout: no byte *)
| RxResync                            (* line 169: restart, then [continue] *)
| RxSkip                              (* line 176: [continue] *)
| RxStore                             (* line 180, packet still incomplete *)
| RxFrame (f : Z) (ch : list Z).      (* line 182: complete packet *)

(** Lines 164-191.  A write beyond the end of [pktBuf] would be undefined
    in C; the list update leaves the list alone there, and
    [parser_inv] below is the invariant that keeps the index in range. *)
Definition usb_rx (r : getchar_result) (s : Loop) : Loop * rx_event :=
  match r with
  | Timeout => (s, RxNone)
  | Char c =>
    let b := to_uint8 c in
    if (0 <? pktPos s) && (b =? SYNC_HOST_TO_DEVICE) then
      (mkLoop (<[0%nat := b]> (pktBuf s)) 1 (glob s), RxResync)
    else if (pktPos s =? 0) && negb (b =? SYNC_HOST_TO_DEVICE) then
      (s, RxSkip)
    else
      let buf := <[Z.to_nat (pktPos s) := b]> (pktBuf s) in
      let pos := to_uint8 (pktPos s + 1) in
      if pos =? OUTPUT_PACKET_SIZE then
        let f := buf !!! 1%nat in
        let ch1 := le_int16 (buf !!! 2%nat) (buf !!! 3%nat) in
        let ch2 := le_int16 (buf !!! 4%nat) (buf !!! 5%nat) in
        let ch3 := le_int16 (buf !!! 6%nat) (buf !!! 7%nat) in
        let ch4 := le_int16 (buf !!! 8%nat) (buf !!! 9%nat) in
        (mkLoop buf 0 (setTargets f ch1 ch2 ch3 ch4 (glob s)),
         RxFrame f [ch1; ch2; ch3; ch4])
      else
        (mkLoop buf pos (glob s), RxStore)
  end.

(** The two [continue] statements jump to the next iteration. *)
Definition continues (e : rx_event) : bool :=
  match e with
  | RxResync | RxSkip => true
  | _ => false
  end.

(** Lines 193-228: the bytes handed to [putchar_raw], in order. *)
Definition usb_tx (s : Loop) : Loop * list Z :=
  match takeSnapshotIfReady (glob s) with
  | (g, Some p) => (mkLoop (pktBuf s) (pktPos s) g, encode p)
  | (g, None) => (mkLoop (pktBuf s) (pktPos s) g, [])
  end.

(** One trip round [while (true)]. *)
Definition usb_loop_body (r : getchar_result) (s : Loop)
  : Loop * (rx_event * list Z) :=
  let (s1, e) := usb_rx r s in
  if continues e then (s1, (e, []))
  else let (s2, out) := usb_tx s1 in (s2, (e, out)).

Fixpoint usb_loop (rs : list getchar_result) (s : Loop)
  : Loop * list (rx_event * list Z) :=
  match rs with
  | [] => (s, [])
  | r :: rs' =>
    let (s1, o) := usb_loop_body r s in
    let (s2, os) := usb_loop rs' s1 in
    (s2, o :: os)
  end.

(** [usb_loop] starts with [pktPos = 0] and an uninitialised buffer. *)
Definition loop_start (buf : list Z) (g : Shared) : Loop := mkLoop buf 0 g.

(** The reader half alone, iterated: the way each iteration went. *)
Fixpoint rx_run (rs : list getchar_result) (s : Loop) : list rx_event :=
  match rs with
  | [] => []
  | r :: rs' => let (s1, e) := usb_rx r s in e :: rx_run rs' s1
  end.

(** The packets completed during a run, oldest first. *)
Fixpoint frames (es : list rx_event) : list (Z * list Z) :=
  match es with
  | [] => []
  | RxFrame f ch :: es' => (f, ch) :: frames es'
  | _ :: es' => frames es'
  end.

Definition events (os : list (rx_event * list Z)) : list rx_event :=
  map fst os.

(** The bytes written to the host during a run. *)
Definition sent (os : list (rx_event * list Z)) : list Z :=
  concat (map snd os).

(** The bytes among a sequence of read results. *)
Fixpoint bytes_of (rs : list getchar_result) : list Z :=
  match rs with
  | [] => []
  | Timeout :: rs' => bytes_of rs'
  | Char c :: rs' => c :: bytes_of rs'
  end.

(** A byte stream that reaches the device in chunks: [usb_loop] reads the
    bytes of a chunk one per iteration and then sees a timeout before
    the next chunk arrives. *)
Definition deliver (chunks : list (list Z)) : list getchar_result :=
  concat (map (fun ch => map Char ch ++ [Timeout]) chunks).

(** Lines 184-188 read off a whole 10-byte packet. *)
Definition decode_frame (pkt : list Z) : Z * list Z :=
  (pkt !!! 1%nat,
   [ le_int16 (pkt !!! 2%nat) (pkt !!! 3%nat);
     le_int16 (pkt !!! 4%nat) (pkt !!! 5%nat);
     le_int16 (pkt !!! 6%nat) (pkt !!! 7%nat);
     le_int16 (pkt !!! 8%nat) (pkt !!! 9%nat) ]).

(** The parser state [usb_loop] maintains between iterations. *)
Definition parser_inv (s : Loop) : Prop :=
  length (pktBuf s) = 10%nat /\
  0 <= pktPos s <= 9 /\
  (0 < pktPos s -> pktBuf s !!! 0%nat = SYNC_HOST_TO_DEVICE).

(** The value ranges of an input report (main.cpp, lines 18-26): CV and
    audio readings in -2048..2047, knobs in 0..4095, flag bits 0-1 the
    pulse inputs and bits 2-3 the switch position 0, 1 or 2. *)
Definition valid_reading (v : Z) : Prop := -2048 <= v <= 2047.
Definition valid_knob (v : Z) : Prop := 0 <= v <= 4095.
Definition valid_flags (f : Z) : Prop := 0 <= f < 16 /\ Z.shiftr f 2 <= 2.

Definition valid_snapshot (p : InputSnapshot) : Prop :=
  valid_flags (flags p) /\
  valid_reading (cv0 p) /\ valid_reading (cv1 p) /\
  valid_reading (audio0 p) /\ valid_reading (audio1 p) /\
  valid_knob (knob0 p) /\ valid_knob (knob1 p) /\ valid_knob (knob2 p).

(** ** Core 1: [OSCBridge::ProcessMainSample] (main.cpp, lines 102-137) *)

(** The jacks [Connected] can be asked about. *)
Inductive Input := Audio1 | Audio2 | CV1 | CV2 | Pulse1 | Pulse2.

(** What the card's input accessors return during one sample. *)
Record HwInputs := mkHw {
  CVIn1 : Z; CVIn2 : Z;               (* int16_t *)
  AudioIn1 : Z; AudioIn2 : Z;         (* int16_t *)
  KnobMain : Z; KnobX : Z; KnobY : Z; (* int32_t KnobVal(...) *)
  PulseIn1 : bool; PulseIn2 : bool;
  SwitchVal : Z;                      (* enum Switch *)
  Connected : Input -> bool
}.

(** The arguments of the output calls made during one sample. *)
Record HwOutputs := mkOut {
  AudioOut1 : Z; AudioOut2 : Z;
  CVOut1 : Z; CVOut2 : Z;
  PulseOut1 : bool; PulseOut2 : bool;
  LedBrightness : list Z              (* value passed for LED 0, 1, 2, 3 *)
}.

(** Lines 115-118: [int32_t v = target[i]; if (v < 0) v = -v;
    (uint16_t)(v * 2)]. *)
Definition led_level (t : Z) : Z :=
  let v := t in
  let v := if v <? 0 then - v else v in
  to_uint16 (v * 2).

(** Lines 126-134.  The repository holds two copies of the firmware; the
    second one ([probe = true]) reads a jack only when the normalisation
    probe reports it connected. *)
Definition sample_inputs (probe : bool) (hw : HwInputs) : InputSnapshot :=
  let conn i := if probe then Connected hw i else true in
  let p1 := if conn Pulse1 then (if PulseIn1 hw then 0x01 else 0x00) else 0x00 in
  let p2 := if conn Pulse2 then (if PulseIn2 hw then 0x02 else 0x00) else 0x00 in
  mkSnapshot
    (Z.lor (Z.lor p1 p2) (Z.shiftl (to_uint8 (SwitchVal hw)) 2))
    (if conn CV1 then CVIn1 hw else 0)
    (if conn CV2 then CVIn2 hw else 0)
    (if conn Audio1 then AudioIn1 hw else 0)
    (if conn Audio2 then AudioIn2 hw else 0)
    (to_int16 (KnobMain hw))
    (to_int16 (KnobX hw))
    (to_int16 (KnobY hw)).

(** One audio sample.  The state is the private [reportCounter] and the
    globals; the result also says what was driven on the outputs and
    whether the input block (lines 124-135) ran. *)
Definition ProcessMainSample (probe : bool) (hw : HwInputs)
    (reportCounter : Z) (g : Shared) : (Z * Shared) * (HwOutputs * bool) :=
  let (f, t) := readTargets g in
  let out :=
    mkOut (t !!! 0%nat) (t !!! 1%nat) (t !!! 2%nat) (t !!! 3%nat)
          (negb (Z.land f 0x01 =? 0))
          (negb (Z.land f 0x02 =? 0))
          (map (fun i => led_level (t !!! i)) [0; 1; 2; 3]%nat) in
  let reportCounter := reportCounter + 1 in
  if INPUT_REPORT_INTERVAL <=? reportCounter then
    ((0, publishSnapshot (sample_inputs probe hw) g), (out, true))
  else
    ((reportCounter, g), (out, false)).

(** Consecutive samples. *)
Fixpoint sampler_run (probe : bool) (hws : list HwInputs)
    (reportCounter : Z) (g : Shared)
  : (Z * Shared) * list (HwOutputs * bool) :=
  match hws with
  | [] => ((reportCounter, g), [])
  | hw :: hws' =>
    let '((c1, g1), o) := ProcessMainSample probe hw reportCounter g in
    let '(st, os) := sampler_run probe hws' c1 g1 in
    (st, o :: os)
  end.

(** The ticks, counted from [n + 1], at which the input block ran. *)
Fixpoint publish_ticks (n : nat) (os : list (HwOutputs * bool)) : list nat :=
  match os with
  | [] => []
  | (_, true) :: os' => S n :: publish_ticks (S n) os'
  | (_, false) :: os' => publish_ticks (S n) os'
  end.

(** ** The two cores together

    One step of the whole firmware is either one audio sample on core 1
    or one iteration of [usb_loop] on core 0. *)

Record System := mkSystem {
  core0 : Loop;
  counter : Z        (* OSCBridge::reportCounter *)
}.

Inductive step_input :=
| Sample (hw : HwInputs)
| Poll (r : getchar_result).

(** What one step shows to the outside: the output calls of a sample, or
    the way the reader went and the bytes written to the host. *)
Inductive step_output :=
| Driven (o : HwOutputs) (published : bool)
| Polled (e : rx_event) (out : list Z).

Definition sys_step (probe : bool) (i : step_input) (s : System)
  : System * step_output :=
  match i with
  | Sample hw =>
    let '((c, g), (o, pub)) :=
      ProcessMainSample probe hw (counter s) (glob (core0 s)) in
    (mkSystem (mkLoop (pktBuf (core0 s)) (pktPos (core0 s)) g) c, Driven o pub)
  | Poll r =>
    let '(l, (e, out)) := usb_loop_body r (core0 s) in
    (mkSystem l (counter s), Polled e out)
  end.

Fixpoint sys_run (probe : bool) (ins : list step_input) (s : System)
  : System * list step_output :=
  match ins with
  | [] => (s, [])
  | i :: ins' =>
    let (s1, o) := sys_step probe i s in
    let (s2, os) := sys_run probe ins' s1 in
    (s2, o :: os)
  end.

(** States the firmware can be in: [main] starts [usb_loop] with the
    globals at their initialisers, an arbitrary 10-byte buffer and both
    counters at zero. *)
Inductive reachable (probe : bool) : System -> Prop :=
| reach_start buf :
    length buf = 10%nat ->
    reachable probe (mkSystem (loop_start buf shared_init) 0)
| reach_step s i :
    reachable probe s -> reachable probe (fst (sys_step probe i s)).

(** ** What a run of [usb_loop] leaves behind *)

(** A completed packet as it sits in the globals afterwards: the flags
    byte went through a [uint8_t] store. *)
Definition as_applied (fr : Z * list Z) : Z * list Z :=
  (to_uint8 (fst fr), snd fr).

(** Ten consecutive bytes that make a packet: the sync byte followed by
    nine bytes that are not the sync byte. *)
Definition is_packet (w : list Z) : Prop :=
  length w = 10%nat /\
  head w = Some SYNC_HOST_TO_DEVICE /\
  Forall (fun b => b <> SYNC_HOST_TO_DEVICE) (tail w).

(** The bytes of a read sequence as [usb_loop] sees them. *)
Definition stream_of (rs : list getchar_result) : list Z :=
  map to_uint8 (bytes_of rs).

(** The buffered part of [pktBuf] is the tail end of the bytes read so
    far, and holds no sync byte after its first. *)
Definition buffered (s : Loop) : list Z :=
  take (Z.to_nat (pktPos s)) (pktBuf s).

Definition parser_tracks (s : Loop) (h : list Z) : Prop :=
  parser_inv s /\
  (exists pre, h = pre ++ buffered s) /\
  Forall (fun b => b <> SYNC_HOST_TO_DEVICE) (tail (buffered s)).

(** The 16-byte packets written during a run of the whole firmware, and
    the number of samples that published a report. *)
Fixpoint packets_sent (os : list step_output) : list (list Z) :=
  match os with
  | [] => []
  | Polled _ out :: os' =>
    match out with
    | [] => packets_sent os'
    | _ => out :: packets_sent os'
    end
  | Driven _ _ :: os' => packets_sent os'
  end.

Fixpoint reports_published (os : list step_output) : nat :=
  match os with
  | [] => 0
  | Driven _ true :: os' => S (reports_published os')
  | _ :: os' => reports_published os'
  end.

(** Whether [ProcessMainSample] reads a jack: always in the first copy
    of the firmware, only when [Connected] says so in the second. *)
Definition jack_read (probe : bool) (hw : HwInputs) (i : Input) : bool :=
  if probe then Connected hw i else true.

(** The readings of one sample have the types of the accessors that
    return them: [int16_t] jacks, knobs in 0..4095, and a switch position
    that is one of the three enumerators. *)
Definition readings_typed (hw : HwInputs) : Prop :=
  is_int16 (CVIn1 hw) /\ is_int16 (CVIn2 hw) /\
  is_int16 (AudioIn1 hw) /\ is_int16 (AudioIn2 hw) /\
  valid_knob (KnobMain hw) /\ valid_knob (KnobX hw) /\ valid_knob (KnobY hw) /\
  0 <= SwitchVal hw <= 2.

(** The types of the input globals. *)
Definition inputs_typed (g : Shared) : Prop :=
  is_uint8 (input_flags g) /\
  Forall is_int16 (input_cv g) /\ Forall is_int16 (input_audio g) /\
  Forall is_int16 (input_knobs g).

(** ** [CardExtensions::ExtendedCard] (ComputerCardExtensions.h, lines 92-232)

    The base class of [OSCBridge]: its [ProcessSample] is what the card
    library calls once per audio sample.  It handles the hold-to-reboot
    switch and the startup LED pattern, and only then hands the sample to
    [ProcessMainSample]. *)

(** Calls to the LED functions of the card library, in program order. *)
Inductive led_cmd :=
| LedOff (index : nat)
| LedOn (index : nat) (value : bool).

Record ExtendedCard := mkCard {
  switchDownCount : Z;                (* int *)
  pattern : option (list (list Z));   (* const Pattern*: the 12 notes, or nullptr *)
  position : Z;                       (* int *)
  sample_counter : Z;                 (* int *)
  initialization_complete : bool
}.

Definition card_init : ExtendedCard := mkCard 0 None 0 0 false.

Definition SAMPLES_PER_HALF_BEAT : Z := 12000.

(** [for (int i = 0; i < 6; i++) LedOff(i);] *)
Definition leds_off : list led_cmd := map LedOff (seq 0 6).

(** [for (int i = 0; i < 6; i++) if (current_note[i]) LedOn(i);] *)
Definition note_leds (note : list Z) : list led_cmd :=
  flat_map (fun i => if note !!! i =? 0 then [] else [LedOn i true]) (seq 0 6).

(** Lines 110-130.  [down] is the test [SwitchVal() == Down]; the
    boolean of the result says that [Abort()] was called. *)
Definition HandleBootSequence (down : bool) (c : ExtendedCard)
  : ExtendedCard * (list led_cmd * bool) :=
  let n := if down then switchDownCount c + 1 else 0 in
  let c1 := mkCard n (pattern c) (position c) (sample_counter c)
                   (initialization_complete c) in
  if 0 <? n then
    let leds := leds_off ++
                [LedOn 4 (0 <? n); LedOn 2 (32000 <? n); LedOn 0 (64000 <? n)] in
    if 96000 <=? n then (c1, (leds, true)) else (c1, (leds, false))
  else (c1, ([], false)).

(** Lines 135-169. *)
Definition HandleStartupPattern (c : ExtendedCard)
  : ExtendedCard * (list led_cmd * bool) :=
  match pattern c with
  | None => (c, ([], true))
  | Some pat =>
    if initialization_complete c then (c, ([], true))
    else
      let show pos :=
        if pos <? 12 then leds_off ++ note_leds (pat !!! Z.to_nat pos) else [] in
      let sc := sample_counter c + 1 in
      if SAMPLES_PER_HALF_BEAT <=? sc then
        let pos := position c + 1 in
        if 12 <=? pos then
          (mkCard (switchDownCount c) (pattern c) pos 0 true, (leds_off, true))
        else
          (mkCard (switchDownCount c) (pattern c) pos 0 false, (show pos, false))
      else
        (mkCard (switchDownCount c) (pattern c) (position c) sc false,
         (show (position c), false))
  end.

(** Which way one call of [ProcessSample] went. *)
Inductive outcome (O : Type) :=
| BootAbort                    (* line 201: shutting down for USB boot *)
| SwitchHeld                   (* line 206 *)
| Startup (completed : bool)   (* line 210; [OnStartupComplete] ran if completed *)
| MainRan (o : O).             (* line 218 *)

Arguments BootAbort {O}.
Arguments SwitchHeld {O}.
Arguments Startup {O} completed.
Arguments MainRan {O} o.

(** Lines 194-219.  The two virtual functions are parameters: the
    pattern [GetStartupPattern] returns and the override of
    [ProcessMainSample], acting on the state [S] of the derived class. *)
Definition ProcessSample {S O : Type} (GetStartupPattern : list (list Z))
    (main : S -> S * O) (down : bool) (c : ExtendedCard) (s : S)
  : (ExtendedCard * S) * (list led_cmd * outcome O) :=
  let c :=
    match pattern c with
    | None => mkCard (switchDownCount c) (Some GetStartupPattern) (position c)
                     (sample_counter c) (initialization_complete c)
    | Some _ => c
    end in
  let '(c, (leds, abort)) := HandleBootSequence down c in
  if abort then ((c, s), (leds, BootAbort))
  else if 0 <? switchDownCount c then ((c, s), (leds, SwitchHeld))
  else if negb (initialization_complete c) then
    let '(c, (leds2, done)) := HandleStartupPattern c in
    ((c, s), (leds ++ leds2, Startup done))
  else
    let (s', o) := main s in
    ((c, s'), (leds, MainRan o)).

(** Consecutive samples; each comes with the switch test and with what
    the main callback needs. *)
Fixpoint card_run {S O I : Type} (pat : list (list Z)) (main : I -> S -> S * O)
    (ins : list (bool * I)) (c : ExtendedCard) (s : S)
  : (ExtendedCard * S) * list (list led_cmd * outcome O) :=
  match ins with
  | [] => ((c, s), [])
  | (down, x) :: ins' =>
    let '((c1, s1), o) := ProcessSample pat (main x) down c s in
    let '(st, os) := card_run pat main ins' c1 s1 in
    (st, o :: os)
  end.

(** What a sample does when it is the [n]-th in a row with the switch
    down: the progress display on the left LED column, and the reboot
    once [n] reaches 96000. *)
Definition hold_output {O : Type} (n : Z) : list led_cmd * outcome O :=
  (leds_off ++ [LedOn 4 true; LedOn 2 (32000 <? n); LedOn 0 (64000 <? n)],
   if 96000 <=? n then BootAbort else SwitchHeld).

(** The card with its pattern pointer set, as [ProcessSample] leaves it. *)
Definition with_pattern (pat : list (list Z)) (c : ExtendedCard) : ExtendedCard :=
  match pattern c with
  | None => mkCard (switchDownCount c) (Some pat) (position c)
                   (sample_counter c) (initialization_complete c)
  | Some _ => c
  end.

Definition set_switchDownCount (n : Z) (c : ExtendedCard) : ExtendedCard :=
  mkCard n (pattern c) (position c) (sample_counter c) (initialization_complete c).

(** The card state after [j] samples with the switch not down, the
    pattern being [pat] and the hold counter at zero. *)
Definition card_after (pat : list (list Z)) (j : Z) : ExtendedCard :=
  if j <? 12 * SAMPLES_PER_HALF_BEAT then
    mkCard 0 (Some pat) (j / SAMPLES_PER_HALF_BEAT) (j mod SAMPLES_PER_HALF_BEAT) false
  else
    mkCard 0 (Some pat) 12 0 true.

(** The startup fields of a card are those reached after [j] samples
    with the switch not down; the pattern pointer may still be unset, as
    it is before the first sample. *)
Definition pattern_at (pat : list (list Z)) (j : Z) (c : ExtendedCard) : Prop :=
  0 <= switchDownCount c /\
  (pattern c = None \/ pattern c = Some pat) /\
  position c = position (card_after pat j) /\
  sample_counter c = sample_counter (card_after pat j) /\
  initialization_complete c = initialization_complete (card_after pat j).

(** What the [n]-th sample with the switch not down does while the
    startup pattern is still running ([n] up to 12 half beats). *)
Definition startup_step {O : Type} (pat : list (list Z)) (n : Z)
  : list led_cmd * outcome O :=
  if n <? 12 * SAMPLES_PER_HALF_BEAT then
    (leds_off ++ note_leds (pat !!! Z.to_nat (n / SAMPLES_PER_HALF_BEAT)),
     Startup false)
  else (leds_off, Startup true).

(** The number of samples of a run at which the switch was not down. *)
Definition unheld {I : Type} (ins : list (bool * I)) : Z :=
  Z.of_nat (length (List.filter (fun p => negb (fst p)) ins)).

(** ** [OSCBridge] on top of [ExtendedCard] (main.cpp, lines 66-141) *)

Definition kTop : list Z := [1; 1; 0; 0; 0; 0].
Definition kMid : list Z := [0; 0; 1; 1; 0; 0].
Definition kBot : list Z := [0; 0; 0; 0; 1; 1].
Definition kAll : list Z := [1; 1; 1; 1; 1; 1].
Definition kOff : list Z := [0; 0; 0; 0; 0; 0].

Definition kBridgePattern : list (list Z) :=
  [ kTop; kMid; kBot;
    kTop; kMid; kBot;
    kAll; kAll; kAll; kAll;
    kOff; kOff ].

(** One audio sample of the bridge.  [Down] is the value of the
    enumerator [Down] of the card library's [enum Switch], which
    [HandleBootSequence] compares [SwitchVal()] with. *)
Definition bridge_main (probe : bool) (hw : HwInputs) (s : Z * Shared)
  : (Z * Shared) * (HwOutputs * bool) :=
  ProcessMainSample probe hw (fst s) (snd s).

Definition bridge_run (Down : Z) (probe : bool) (hws : list HwInputs)
    (c : ExtendedCard) (s : Z * Shared)
  : (ExtendedCard * (Z * Shared)) * list (list led_cmd * outcome (HwOutputs * bool)) :=
  card_run kBridgePattern (bridge_main probe)
           (map (fun hw => (SwitchVal hw =? Down, hw)) hws) c s.
(** * Properties *)

(** ** Arithmetic of the conversions *)

Lemma to_uint8_id z : 0 <= z < 256 -> to_uint8 z = z.
Proof. intros H. unfold to_uint8. apply Z.mod_small. lia. Qed.

Lemma to_uint8_range z : 0 <= to_uint8 z < 256.
Proof. unfold to_uint8. apply Z.mod_pos_bound. lia. Qed.

Lemma to_int16_id z : -32768 <= z <= 32767 -> to_int16 z = z.
Proof. intros H. unfold to_int16. rewrite Z.mod_small; lia. Qed.

Lemma to_int16_range z : -32768 <= to_int16 z <= 32767.
Proof.
  unfold to_int16.
  pose proof (Z.mod_pos_bound (z + 32768) 65536). lia.
Qed.

(** ** The parser state of [usb_loop] *)

Lemma usb_rx_parser_inv r s :
  parser_inv s -> parser_inv (fst (usb_rx r s)).
Proof.
  intros (Hlen & Hpos & Hsync). unfold usb_rx.
  destruct r as [|c]; [easy|].
  destruct (0 <? pktPos s) eqn:Hp; destruct (to_uint8 c =? SYNC_HOST_TO_DEVICE) eqn:Hb;
    cbn [andb negb fst].
  - (* resync *)
    apply Z.eqb_eq in Hb. repeat split; cbn; try lia.
    + now rewrite length_insert.
    + intros _. rewrite list_lookup_total_insert_eq by lia. exact Hb.
  - (* store, frame in progress *)
    apply Z.ltb_lt in Hp.
    replace (pktPos s =? 0) with false by (symmetry; apply Z.eqb_neq; lia).
    cbn [andb]. rewrite to_uint8_id by lia.
    unfold OUTPUT_PACKET_SIZE.
    destruct (pktPos s + 1 =? 10) eqn:Hfull; cbn [fst];
      repeat split; cbn; rewrite ?length_insert; try lia.
    intros _. rewrite list_lookup_total_insert_ne by lia. auto.
  - (* store, first byte *)
    apply Z.ltb_ge in Hp. assert (pktPos s = 0) as H0 by lia.
    rewrite H0. apply Z.eqb_eq in Hb.
    change (to_uint8 (0 + 1)) with 1.
    change (1 =? OUTPUT_PACKET_SIZE) with false.
    change (0 =? 0) with true. change (Z.to_nat 0) with 0%nat.
    cbn [andb negb fst]. unfold parser_inv. cbn [pktBuf pktPos].
    rewrite length_insert. split; [exact Hlen|]. split; [lia|].
    intros _. rewrite list_lookup_total_insert_eq by lia. exact Hb.
  - (* skip *)
    apply Z.ltb_ge in Hp. assert (pktPos s = 0) as H0 by lia.
    rewrite H0. change (0 =? 0) with true. cbn [andb negb fst].
    split; [exact Hlen|]. split; [lia|exact Hsync].
Qed.

Lemma usb_tx_parser s :
  pktBuf (fst (usb_tx s)) = pktBuf s /\ pktPos (fst (usb_tx s)) = pktPos s.
Proof.
  unfold usb_tx. destruct (takeSnapshotIfReady (glob s)) as [g [p|]]; easy.
Qed.

Lemma usb_loop_body_parser_inv r s :
  parser_inv s -> parser_inv (fst (usb_loop_body r s)).
Proof.
  intros H. unfold usb_loop_body.
  pose proof (usb_rx_parser_inv r s H) as H1.
  destruct (usb_rx r s) as [s1 e]. cbn [fst] in H1.
  destruct (continues e); [exact H1|].
  pose proof (usb_tx_parser s1) as [Hb Hp].
  destruct (usb_tx s1) as [s2 out]. cbn [fst] in *.
  unfold parser_inv in *. rewrite Hb, Hp. exact H1.
Qed.

Lemma reachable_parser_inv probe s :
  reachable probe s -> parser_inv (core0 s).
Proof.
  induction 1 as [buf Hlen | s i Hr IH].
  - split; [exact Hlen|]. cbn. split; lia.
  - destruct i as [hw | r]; unfold sys_step.
    + destruct (ProcessMainSample probe hw (counter s) (glob (core0 s)))
        as [[c g] [o pub]]. exact IH.
    + pose proof (usb_loop_body_parser_inv r (core0 s) IH) as H.
      destruct (usb_loop_body r (core0 s)) as [l [e out]]. exact H.
Qed.

(** C9.  From every state the firmware can reach, one more iteration of
    [usb_loop] (whatever [getchar_timeout_us] returned) finds its write
    index inside [pktBuf], leaves [pktPos] in 0..9 and, whenever [pktPos]
    is above 0, leaves the sync byte 0xC0 in [pktBuf[0]]. *)
Theorem parser_invariant probe s r :
  reachable probe s ->
  let s' := fst (usb_loop_body r (core0 s)) in
  (Z.to_nat (pktPos (core0 s)) < length (pktBuf (core0 s)))%nat /\
  length (pktBuf s') = 10%nat /\
  0 <= pktPos s' <= 9 /\
  (0 < pktPos s' -> pktBuf s' !!! 0%nat = 0xC0).
Proof.
  intros Hr s'.
  pose proof (reachable_parser_inv probe s Hr) as (Hlen & Hpos & _).
  pose proof (usb_loop_body_parser_inv r (core0 s) (reachable_parser_inv probe s Hr))
    as (Hlen' & Hpos' & Hsync').
  fold s' in Hlen', Hpos', Hsync'.
  split; [lia|]. split; [exact Hlen'|]. split; [exact Hpos'|exact Hsync'].
Qed.

Lemma parser_invariant_witness :
  let s := mkSystem (loop_start (repeat 0 10) shared_init) 0 in
  let s' := fst (usb_loop_body (Char 0xC0) (core0 s)) in
  pktPos s' = 1 /\ pktBuf s' !!! 0%nat = 0xC0.
Proof.
  intros s s'.
  destruct (parser_invariant false s (Char 0xC0)) as (_ & _ & _ & H).
  - apply reach_start. reflexivity.
  - split; [reflexivity|]. apply H. reflexivity.
Defined.

(** ** The decoder, one byte at a time

    The four cases of the per-byte algorithm, read off [usb_rx]. *)

Lemma sync_eqb_false b :
  b <> SYNC_HOST_TO_DEVICE -> (b =? SYNC_HOST_TO_DEVICE) = false.
Proof. intros H. now apply Z.eqb_neq. Qed.

Lemma rx_timeout s : usb_rx Timeout s = (s, RxNone).
Proof. reflexivity. Qed.

Lemma rx_resync c s :
  0 < pktPos s -> to_uint8 c = SYNC_HOST_TO_DEVICE ->
  usb_rx (Char c) s =
    (mkLoop (<[0%nat := SYNC_HOST_TO_DEVICE]> (pktBuf s)) 1 (glob s), RxResync).
Proof.
  intros Hp Hb. unfold usb_rx. rewrite Hb, Z.eqb_refl.
  replace (0 <? pktPos s) with true by (symmetry; apply Z.ltb_lt; lia).
  reflexivity.
Qed.

Lemma rx_skip c s :
  pktPos s = 0 -> to_uint8 c <> SYNC_HOST_TO_DEVICE ->
  usb_rx (Char c) s = (s, RxSkip).
Proof.
  intros Hp Hb. unfold usb_rx. rewrite Hp, (sync_eqb_false _ Hb). reflexivity.
Qed.

Lemma rx_start c s :
  pktPos s = 0 -> to_uint8 c = SYNC_HOST_TO_DEVICE ->
  usb_rx (Char c) s =
    (mkLoop (<[0%nat := SYNC_HOST_TO_DEVICE]> (pktBuf s)) 1 (glob s), RxStore).
Proof.
  intros Hp Hb. unfold usb_rx. rewrite Hp, Hb. reflexivity.
Qed.

Lemma rx_store c s :
  0 < pktPos s < 9 -> to_uint8 c <> SYNC_HOST_TO_DEVICE ->
  usb_rx (Char c) s =
    (mkLoop (<[Z.to_nat (pktPos s) := to_uint8 c]> (pktBuf s))
            (pktPos s + 1) (glob s), RxStore).
Proof.
  intros Hp Hb. unfold usb_rx. rewrite (sync_eqb_false _ Hb).
  replace (pktPos s =? 0) with false by (symmetry; apply Z.eqb_neq; lia).
  rewrite andb_false_r. cbn [andb].
  rewrite to_uint8_id by lia.
  replace (pktPos s + 1 =? OUTPUT_PACKET_SIZE) with false
    by (symmetry; apply Z.eqb_neq; unfold OUTPUT_PACKET_SIZE; lia).
  reflexivity.
Qed.

Lemma rx_complete c s :
  pktPos s = 9 -> to_uint8 c <> SYNC_HOST_TO_DEVICE ->
  let buf := <[9%nat := to_uint8 c]> (pktBuf s) in
  usb_rx (Char c) s =
    (mkLoop buf 0
       (setTargets (buf !!! 1%nat)
          (le_int16 (buf !!! 2%nat) (buf !!! 3%nat))
          (le_int16 (buf !!! 4%nat) (buf !!! 5%nat))
          (le_int16 (buf !!! 6%nat) (buf !!! 7%nat))
          (le_int16 (buf !!! 8%nat) (buf !!! 9%nat)) (glob s)),
     RxFrame (buf !!! 1%nat) (snd (decode_frame buf))).
Proof.
  intros Hp Hb buf. unfold usb_rx. rewrite (sync_eqb_false _ Hb), Hp.
  reflexivity.
Qed.

(** The reader half looks at nothing but [pktBuf] and [pktPos]. *)
Lemma usb_rx_parser_only r s g :
  let '(s1, e1) := usb_rx r s in
  let '(s2, e2) := usb_rx r (mkLoop (pktBuf s) (pktPos s) g) in
  pktBuf s1 = pktBuf s2 /\ pktPos s1 = pktPos s2 /\ e1 = e2.
Proof.
  unfold usb_rx. destruct r as [|c]; cbn [pktBuf pktPos glob]; [easy|].
  destruct (_ && _); [easy|].
  destruct (_ && _); [easy|].
  destruct (_ =? _); easy.
Qed.

Lemma rx_run_parser_only rs : forall s g,
  rx_run rs s = rx_run rs (mkLoop (pktBuf s) (pktPos s) g).
Proof.
  induction rs as [|r rs IH]; intros s g; [reflexivity|].
  cbn [rx_run].
  pose proof (usb_rx_parser_only r s g) as H.
  destruct (usb_rx r s) as [s1 e1].
  destruct (usb_rx r (mkLoop (pktBuf s) (pktPos s) g)) as [s2 e2].
  destruct H as (Hb & Hp & ->). f_equal.
  rewrite (IH s1 (glob s2)), Hb, Hp. now destruct s2.
Qed.

Lemma rx_run_same_parser rs s1 s2 :
  pktBuf s1 = pktBuf s2 -> pktPos s1 = pktPos s2 ->
  rx_run rs s1 = rx_run rs s2.
Proof.
  intros Hb Hp. rewrite (rx_run_parser_only rs s1 (glob s2)), Hb, Hp.
  now destruct s2.
Qed.

(** The writer half does not disturb the reader: the events of the full
    loop are those of the reader half iterated alone. *)
Lemma usb_loop_events rs : forall s,
  events (snd (usb_loop rs s)) = rx_run rs s.
Proof.
  induction rs as [|r rs IH]; intros s; [reflexivity|].
  cbn [usb_loop rx_run]. unfold usb_loop_body.
  destruct (usb_rx r s) as [s1 e].
  destruct (continues e).
  - specialize (IH s1). destruct (usb_loop rs s1) as [s2 os].
    cbn in *. now rewrite IH.
  - pose proof (usb_tx_parser s1) as [Hb Hp].
    destruct (usb_tx s1) as [s2 out]. cbn [fst] in *.
    specialize (IH s2). destruct (usb_loop rs s2) as [s3 os].
    cbn in *. rewrite IH. f_equal. now apply rx_run_same_parser.
Qed.

(** Timeouts leave the reader where it was. *)
Lemma rx_run_bytes_only rs : forall s,
  frames (rx_run rs s) = frames (rx_run (map Char (bytes_of rs)) s).
Proof.
  induction rs as [|[|c] rs IH]; intros s; [reflexivity| |].
  - cbn [rx_run bytes_of usb_rx frames]. apply IH.
  - cbn [rx_run bytes_of map]. destruct (usb_rx (Char c) s) as [s1 e].
    destruct e; cbn [frames]; rewrite ?IH; reflexivity.
Qed.

Lemma bytes_of_deliver chunks : bytes_of (deliver chunks) = concat chunks.
Proof.
  unfold deliver. induction chunks as [|ch chunks IH]; [reflexivity|].
  cbn [map concat]. rewrite <- IH. clear IH.
  induction ch as [|b ch IH]; cbn; [reflexivity|]. now rewrite IH.
Qed.

(** The packets a run completes depend on the bytes only, not on how they
    were cut into chunks. *)
Lemma frames_bytes_only rs s :
  frames (events (snd (usb_loop rs s))) =
  frames (rx_run (map Char (bytes_of rs)) s).
Proof. rewrite usb_loop_events. apply rx_run_bytes_only. Qed.

Lemma frames_chunking chunks s :
  frames (events (snd (usb_loop (deliver chunks) s))) =
  frames (rx_run (map Char (concat chunks)) s).
Proof. rewrite frames_bytes_only, bytes_of_deliver. reflexivity. Qed.

(** Two ways of cutting the same bytes into chunks complete the same
    packets, whatever the bytes and the state. *)
Lemma frames_partition_independent chunks1 chunks2 s :
  concat chunks1 = concat chunks2 ->
  frames (events (snd (usb_loop (deliver chunks1) s))) =
  frames (events (snd (usb_loop (deliver chunks2) s))).
Proof. intros H. rewrite !frames_chunking, H. reflexivity. Qed.

(** ** Whole packets *)

Ltac explode_list l H :=
  repeat (destruct l as [|? l]; [discriminate H|]);
  destruct l; [clear H|discriminate H].

Ltac rx_side :=
  cbn [pktPos];
  first [ lia | reflexivity
        | rewrite to_uint8_id by lia;
          first [assumption | reflexivity | unfold SYNC_HOST_TO_DEVICE; lia] ].

Ltac rx_next :=
  cbn [rx_run map];
  first [ rewrite rx_store by rx_side
        | rewrite rx_start by rx_side
        | rewrite rx_resync by rx_side
        | rewrite rx_complete by rx_side ];
  cbn [pktBuf pktPos glob Z.to_nat Z.add Pos.to_nat Pos.iter_op Nat.add
       Pos.add Pos.succ].

(** A packet whose nine payload bytes all differ from the sync byte is
    stored byte by byte and completes on its tenth byte. *)
Lemma rx_run_whole_frame frame buf g :
  length frame = 10%nat -> length buf = 10%nat ->
  Forall is_uint8 frame ->
  head frame = Some SYNC_HOST_TO_DEVICE ->
  Forall (fun b => b <> SYNC_HOST_TO_DEVICE) (tail frame) ->
  rx_run (map Char frame) (loop_start buf g) =
    repeat RxStore 9 ++ [RxFrame (fst (decode_frame frame)) (snd (decode_frame frame))].
Proof.
  intros Hf Hb Hbytes Hhd Htl.
  explode_list frame Hf. explode_list buf Hb.
  cbn [head tail] in Hhd, Htl. injection Hhd as ->.
  repeat match goal with
         | H : Forall _ (_ :: _) |- _ => apply Forall_cons_iff in H; destruct H
         | H : Forall _ [] |- _ => clear H
         end.
  unfold is_uint8 in *. unfold loop_start.
  do 10 rx_next. cbn [rx_run].
  rewrite !to_uint8_id by lia.
  reflexivity.
Qed.

(** The worked example of a command packet: flags 0, channel 1 = 0x0800. *)
Example decode_example :
  frames (events (snd (usb_loop
    (map Char [0xC0; 0x00; 0x00; 0x08; 0x00; 0x00; 0x00; 0x00; 0x00; 0x00])
    (loop_start (repeat 0 10) shared_init))))
  = [(0, [2048; 0; 0; 0])] /\
  readTargets (glob (fst (usb_loop
    (map Char [0xC0; 0x00; 0x00; 0x08; 0x00; 0x00; 0x00; 0x00; 0x00; 0x00])
    (loop_start (repeat 0 10) shared_init))))
  = (0, [2048; 0; 0; 0]).
Proof. split; reflexivity. Qed.

(** The worked example of an input packet. *)
Example encode_example :
  encode (mkSnapshot 0x06 100 (-50) 0 0 4095 0 2048) =
    [0xC1; 0x06; 0x64; 0x00; 0xCE; 0xFF; 0x00; 0x00;
     0x00; 0x00; 0xFF; 0x0F; 0x00; 0x00; 0x00; 0x08].
Proof. reflexivity. Qed.

(** C1, as it holds.  A 10-byte packet that starts with 0xC0 and has no
    0xC0 among its nine payload bytes, delivered in any partition into
    chunks to a reader with [pktPos = 0], completes exactly one packet;
    its flags and four channel values are those read off the packet, the
    same as when the ten bytes arrive as one chunk.  The same holds for
    any placement of read timeouts between the bytes. *)
Theorem frame_chunking frame chunks buf g :
  length frame = 10%nat ->
  Forall is_uint8 frame ->
  head frame = Some 0xC0 ->
  Forall (fun b => b <> 0xC0) (tail frame) ->
  length buf = 10%nat ->
  concat chunks = frame ->
  frames (events (snd (usb_loop (deliver chunks) (loop_start buf g))))
    = [decode_frame frame] /\
  frames (events (snd (usb_loop (deliver [frame]) (loop_start buf g))))
    = [decode_frame frame] /\
  (forall rs, bytes_of rs = frame ->
     frames (events (snd (usb_loop rs (loop_start buf g)))) = [decode_frame frame]).
Proof.
  intros Hlen Hbytes Hhd Htl Hbuf Hcat.
  assert (frames (rx_run (map Char frame) (loop_start buf g)) = [decode_frame frame])
    as Hwhole.
  { rewrite (rx_run_whole_frame frame buf g Hlen Hbuf Hbytes Hhd Htl).
    destruct (decode_frame frame) as [f ch]. reflexivity. }
  split; [|split].
  - rewrite frames_chunking, Hcat. exact Hwhole.
  - rewrite frames_chunking. cbn [concat]. rewrite app_nil_r. exact Hwhole.
  - intros rs Hrs. rewrite frames_bytes_only, Hrs. exact Hwhole.
Qed.

Lemma frame_chunking_witness :
  let frame := [0xC0; 0x03; 0x00; 0x08; 0xFF; 0xFF; 0x34; 0x12; 0x00; 0xF8] in
  let chunks := [[0xC0; 0x03]; [0x00]; [0x08; 0xFF; 0xFF; 0x34]; [0x12; 0x00; 0xF8]] in
  let start := loop_start (repeat 0 10) shared_init in
  concat chunks = frame /\
  decode_frame frame = (3, [2048; -1; 4660; -2048]) /\
  frames (events (snd (usb_loop (deliver chunks) start))) = [decode_frame frame] /\
  frames (events (snd (usb_loop (deliver [frame]) start))) = [decode_frame frame].
Proof.
  intros frame chunks start.
  split; [reflexivity|]. split; [reflexivity|].
  refine (let H := frame_chunking frame chunks (repeat 0 10) shared_init
                     _ _ _ _ _ _ in conj (proj1 H) (proj1 (proj2 H))).
  - reflexivity.
  - repeat (constructor; [unfold is_uint8; lia|]); constructor.
  - reflexivity.
  - repeat (constructor; [lia|]); constructor.
  - reflexivity.
  - reflexivity.
Defined.

(** C1, as stated, fails: the packet [C0 00 C0 00 00 00 00 00 00 00]
    (flags 0, channel 1 = 192) starts with the sync byte and is 10 bytes
    long, yet delivered whole it completes no packet at all, because its
    third byte restarts the reader. *)
Lemma frame_chunking_counterexample :
  ~ (forall frame chunks buf g,
       length frame = 10%nat ->
       Forall is_uint8 frame ->
       head frame = Some 0xC0 ->
       length buf = 10%nat ->
       concat chunks = frame ->
       length (frames (events (snd (usb_loop (deliver chunks) (loop_start buf g)))))
         = 1%nat).
Proof.
  intros H.
  specialize (H [0xC0; 0; 0xC0; 0; 0; 0; 0; 0; 0; 0]
                [[0xC0; 0; 0xC0; 0; 0; 0; 0; 0; 0; 0]]
                (repeat 0 10) shared_init).
  assert (Forall is_uint8 [0xC0; 0; 0xC0; 0; 0; 0; 0; 0; 0; 0]) as Hb
    by (repeat (constructor; [unfold is_uint8; lia|]); constructor).
  specialize (H eq_refl Hb eq_refl eq_refl eq_refl).
  vm_compute in H. discriminate H.
Qed.

(** C2.  With [pktPos = 0], the bytes C0 11 C0 22 00 00 00 00 00 00 go:
    store, store, restart, then seven stores.  No packet completes, two
    bytes were dropped, and eight bytes counted from the second C0 sit in
    the buffer.  One more byte other than 0xC0 completes nothing; the
    one after that completes the packet that began at index 2. *)
Theorem resync_scenario buf g x y :
  length buf = 10%nat ->
  is_uint8 x -> is_uint8 y -> x <> 0xC0 -> y <> 0xC0 ->
  let input := [0xC0; 0x11; 0xC0; 0x22; 0x00; 0x00; 0x00; 0x00; 0x00; 0x00] in
  let start := loop_start buf g in
  events (snd (usb_loop (map Char input) start))
    = [RxStore; RxStore; RxResync;
       RxStore; RxStore; RxStore; RxStore; RxStore; RxStore; RxStore] /\
  pktPos (fst (usb_loop (map Char input) start)) = 8 /\
  take 8 (pktBuf (fst (usb_loop (map Char input) start))) = drop 2 input /\
  frames (events (snd (usb_loop (map Char (input ++ [x])) start))) = [] /\
  events (snd (usb_loop (map Char (input ++ [x; y])) start))
    = [RxStore; RxStore; RxResync;
       RxStore; RxStore; RxStore; RxStore; RxStore; RxStore; RxStore;
       RxStore; RxFrame 0x22 [0; 0; 0; le_int16 x y]] /\
  frames (events (snd (usb_loop (map Char (input ++ [x; y])) start)))
    = [decode_frame (drop 2 input ++ [x; y])].
Proof.
  intros Hbuf Hx Hy Hxs Hys input start. subst input start.
  unfold is_uint8 in *. explode_list buf Hbuf.
  split; [|split; [|split; [|split; [|split]]]].
  - rewrite usb_loop_events. reflexivity.
  - destruct g as [t tf icv iau ikn ifl []]; reflexivity.
  - destruct g as [t tf icv iau ikn ifl []]; reflexivity.
  - rewrite usb_loop_events. unfold loop_start. cbn [app].
    do 11 rx_next. reflexivity.
  - rewrite usb_loop_events. unfold loop_start. cbn [app].
    do 12 rx_next. cbn [rx_run]. rewrite !to_uint8_id by lia. reflexivity.
  - rewrite usb_loop_events. unfold loop_start. cbn [app].
    do 12 rx_next. cbn [rx_run]. rewrite !to_uint8_id by lia. reflexivity.
Qed.

Lemma resync_scenario_witness :
  frames (events (snd (usb_loop
    (map Char ([0xC0; 0x11; 0xC0; 0x22; 0x00; 0x00; 0x00; 0x00; 0x00; 0x00]
               ++ [0x34; 0x12]))
    (loop_start (repeat 0 10) shared_init))))
  = [(0x22, [0; 0; 0; 0x1234])].
Proof.
  pose proof (resync_scenario (repeat 0 10) shared_init 0x34 0x12) as H.
  cbv zeta in H.
  destruct H as (_ & _ & _ & _ & _ & H).
  - reflexivity.
  - unfold is_uint8; lia.
  - unfold is_uint8; lia.
  - lia.
  - lia.
  - exact H.
Defined.

(** ** Who writes the output targets *)

Lemma usb_tx_targets s :
  readTargets (glob (fst (usb_tx s))) = readTargets (glob s).
Proof.
  unfold usb_tx, takeSnapshotIfReady.
  destruct (inputs_ready (glob s)); reflexivity.
Qed.

Lemma publishSnapshot_targets p g :
  readTargets (publishSnapshot p g) = readTargets g.
Proof. reflexivity. Qed.

Lemma ProcessMainSample_targets probe hw c g :
  readTargets (snd (fst (ProcessMainSample probe hw c g))) = readTargets g.
Proof.
  unfold ProcessMainSample. cbn [readTargets].
  destruct (INPUT_REPORT_INTERVAL <=? c + 1); reflexivity.
Qed.

(** C8.  The targets start as four zeros and a zero flags byte.  An
    iteration of [usb_loop] that does not complete a packet (timeout,
    skipped byte, restart, or a byte stored with the packet still short)
    leaves [target] and [target_flags] as they were, in the reader half
    and in the whole iteration; so do the writer half and every audio
    sample.  An iteration that does complete a packet changes the
    globals by the five stores of [setTargets] and nothing else. *)
Theorem targets_written_only_by_complete_frame probe r hw c s :
  readTargets shared_init = (0, [0; 0; 0; 0]) /\
  match snd (usb_rx r s) with
  | RxFrame f ch =>
    glob (fst (usb_rx r s)) =
      setTargets f (ch !!! 0%nat) (ch !!! 1%nat) (ch !!! 2%nat) (ch !!! 3%nat) (glob s)
  | _ =>
    readTargets (glob (fst (usb_rx r s))) = readTargets (glob s) /\
    readTargets (glob (fst (usb_loop_body r s))) = readTargets (glob s)
  end /\
  readTargets (glob (fst (usb_tx s))) = readTargets (glob s) /\
  readTargets (snd (fst (ProcessMainSample probe hw c (glob s))))
    = readTargets (glob s).
Proof.
  split; [reflexivity|]. split; [|split].
  - unfold usb_loop_body.
    assert (snd (usb_rx r s) = RxNone \/ snd (usb_rx r s) = RxResync \/
            snd (usb_rx r s) = RxSkip \/ snd (usb_rx r s) = RxStore ->
            glob (fst (usb_rx r s)) = glob s) as Hsame.
    { unfold usb_rx. destruct r as [|b]; [reflexivity|].
      destruct (_ && _); [reflexivity|].
      destruct (_ && _); [reflexivity|].
      destruct (_ =? _); [|reflexivity].
      cbn [snd]. intros [H|[H|[H|H]]]; discriminate H. }
    assert (match snd (usb_rx r s) with
            | RxFrame f ch =>
              glob (fst (usb_rx r s)) =
                setTargets f (ch !!! 0%nat) (ch !!! 1%nat) (ch !!! 2%nat)
                           (ch !!! 3%nat) (glob s)
            | _ => True
            end) as Hframe.
    { unfold usb_rx. destruct r as [|b]; [exact I|].
      destruct (_ && _); [exact I|].
      destruct (_ && _); [exact I|].
      destruct (_ =? _); [reflexivity|exact I]. }
    destruct (usb_rx r s) as [s1 e]. cbn [fst snd] in *.
    destruct e; cbn [continues]; [| | | |exact Hframe];
      assert (glob s1 = glob s) as Hg by (apply Hsame; tauto);
      (split; [now rewrite Hg|]);
      try (cbn [fst]; now rewrite Hg);
      pose proof (usb_tx_targets s1) as H;
      destruct (usb_tx s1) as [s2 out]; cbn [fst] in *;
      now rewrite H, Hg.
  - apply usb_tx_targets.
  - apply ProcessMainSample_targets.
Qed.

(** ** The 16-byte packet *)

Lemma lor_shiftl_8 lo hi :
  0 <= lo < 256 -> 0 <= hi -> Z.lor lo (Z.shiftl hi 8) = lo + 256 * hi.
Proof.
  intros Hlo Hhi.
  assert (Z.land lo (Z.shiftl hi 8) = 0) as Hdisj.
  { apply Z.bits_inj'. intros n Hn.
    rewrite Z.land_spec, Z.bits_0.
    destruct (Z.lt_ge_cases n 8) as [Hlt|Hge].
    - rewrite Z.shiftl_spec_low by lia. apply andb_false_r.
    - replace lo with (lo mod 2 ^ 8) by (apply Z.mod_small; simpl; lia).
      rewrite Z.mod_pow2_bits_high by lia. reflexivity. }
  rewrite <- Z.lxor_lor, <- Z.add_nocarry_lxor by exact Hdisj.
  rewrite Z.shiftl_mul_pow2 by lia. change (2 ^ 8) with 256. lia.
Qed.

Lemma lo_byte_mod v : lo_byte v = v mod 256.
Proof.
  unfold lo_byte. change 0xFF with (Z.ones 8).
  rewrite Z.land_ones by lia. change (2 ^ 8) with 256.
  apply to_uint8_id, Z.mod_pos_bound. lia.
Qed.

Lemma hi_byte_mod v : hi_byte v = (v / 256) mod 256.
Proof.
  unfold hi_byte. change 0xFF with (Z.ones 8).
  rewrite Z.land_ones, Z.shiftr_div_pow2 by lia. change (2 ^ 8) with 256.
  apply to_uint8_id, Z.mod_pos_bound. lia.
Qed.

(** Splitting an [int16_t] into two bytes and reassembling them gives the
    value back, for every 16-bit value. *)
Lemma le_int16_bytes v : is_int16 v -> le_int16 (lo_byte v) (hi_byte v) = v.
Proof.
  intros Hv. unfold is_int16 in Hv. unfold le_int16.
  rewrite lo_byte_mod, hi_byte_mod.
  rewrite lor_shiftl_8
    by (try apply Z.mod_pos_bound; try apply Z.mod_pos_bound; lia).
  unfold to_int16.
  pose proof (Z.div_mod v 256 ltac:(lia)).
  pose proof (Z.mod_pos_bound v 256 ltac:(lia)).
  pose proof (Z.div_mod (v / 256) 256 ltac:(lia)).
  pose proof (Z.mod_pos_bound (v / 256) 256 ltac:(lia)).
  assert (v / 256 / 256 = 0 \/ v / 256 / 256 = -1) as [Hq|Hq] by lia.
  - rewrite Z.mod_small; lia.
  - replace (v mod 256 + 256 * ((v / 256) mod 256) + 32768)
      with (v + 32768 + 1 * 65536) by lia.
    rewrite Z.mod_add by lia. rewrite Z.mod_small; lia.
Qed.

(** C3.  For every input report within the documented ranges, reading
    the 16 bytes of [encode] back with the little-endian extraction of
    the command reader returns the flags byte and the seven 16-bit
    fields unchanged. *)
Theorem encode_round_trip p :
  valid_snapshot p ->
  length (encode p) = 16%nat /\
  encode p !!! 0%nat = 0xC1 /\
  decode_input_packet (encode p) = p.
Proof.
  intros (Hf & H1 & H2 & H3 & H4 & H5 & H6 & H7).
  unfold valid_reading, valid_knob in *.
  split; [reflexivity|]. split; [reflexivity|].
  destruct p as [f c0 c1 a0 a1 k0 k1 k2]. cbn [cv0 cv1 audio0 audio1 knob0 knob1 knob2] in *.
  unfold decode_input_packet, encode.
  cbn [lookup_total list_lookup_total flags cv0 cv1 audio0 audio1 knob0 knob1 knob2].
  rewrite !le_int16_bytes by (unfold is_int16; lia).
  reflexivity.
Qed.

Lemma encode_round_trip_witness :
  let p := mkSnapshot 0x06 100 (-50) (-2048) 2047 4095 0 2048 in
  encode p = [0xC1; 0x06; 0x64; 0x00; 0xCE; 0xFF; 0x00; 0xF8;
              0xFF; 0x07; 0xFF; 0x0F; 0x00; 0x00; 0x00; 0x08] /\
  decode_input_packet (encode p) = p.
Proof.
  intros p. split; [reflexivity|].
  apply (encode_round_trip p).
  unfold valid_snapshot, valid_flags, valid_reading, valid_knob, p.
  cbn [flags cv0 cv1 audio0 audio1 knob0 knob1 knob2].
  change (Z.shiftr 6 2) with 1. lia.
Defined.

(** ** Decimation of the input reports *)

Lemma sampler_run_length probe hws : forall c g,
  length (snd (sampler_run probe hws c g)) = length hws.
Proof.
  induction hws as [|hw hws IH]; intros c g; [reflexivity|].
  cbn [sampler_run].
  destruct (ProcessMainSample probe hw c g) as [[c1 g1] o].
  specialize (IH c1 g1). destruct (sampler_run probe hws c1 g1) as [st os].
  cbn in *. now rewrite IH.
Qed.

(** With the counter in step with the tick number, the input block runs
    at exactly the ticks divisible by 48, and the counter stays below 48. *)
Lemma publish_ticks_filter probe hws : forall n c g,
  c = Z.of_nat (n mod 48) ->
  publish_ticks n (snd (sampler_run probe hws c g)) =
    List.filter (fun t => (t mod 48 =? 0)%nat) (seq (S n) (length hws)).
Proof.
  induction hws as [|hw hws IH]; intros n c g Hc; [reflexivity|].
  cbn [sampler_run length seq List.filter].
  unfold ProcessMainSample, readTargets, INPUT_REPORT_INTERVAL.
  assert (n mod 48 < 48)%nat as Hlt by (apply Nat.mod_upper_bound; lia).
  assert (S n mod 48 = if (n mod 48 =? 47)%nat then 0 else S (n mod 48))%nat as HS.
  { destruct (Nat.eqb_spec (n mod 48) 47) as [E|E].
    - pose proof (Nat.div_mod_eq n 48) as Hn.
      symmetry. apply (Nat.mod_unique _ _ (S (n / 48))); lia.
    - pose proof (Nat.div_mod_eq n 48) as Hn.
      symmetry. apply (Nat.mod_unique _ _ (n / 48)); lia. }
  destruct (Nat.eqb_spec (n mod 48) 47) as [E|E].
  - replace (48 <=? c + 1) with true by (symmetry; apply Z.leb_le; lia).
    specialize (IH (S n) 0 (publishSnapshot (sample_inputs probe hw) g)).
    destruct (sampler_run probe hws 0 _) as [st os].
    cbn [snd publish_ticks] in *. rewrite HS. cbn [Nat.eqb].
    f_equal. apply IH. rewrite HS. reflexivity.
  - replace (48 <=? c + 1) with false by (symmetry; apply Z.leb_gt; lia).
    specialize (IH (S n) (c + 1) g).
    destruct (sampler_run probe hws (c + 1) g) as [st os].
    cbn [snd publish_ticks] in *. rewrite HS. cbn [Nat.eqb].
    apply IH. rewrite HS. lia.
Qed.

Lemma multiples_of_48 N :
  List.filter (fun t => (t mod 48 =? 0)%nat) (seq 1 N) =
    map (fun k => (k * 48)%nat) (seq 1 (N / 48)).
Proof.
  induction N as [|N IH]; [reflexivity|].
  rewrite seq_S, List.filter_app, IH. cbn [List.filter Nat.add].
  pose proof (Nat.div_mod_eq N 48) as HN.
  pose proof (Nat.div_mod_eq (S N) 48) as HSN.
  assert (N mod 48 < 48)%nat by (apply Nat.mod_upper_bound; lia).
  assert (S N mod 48 < 48)%nat by (apply Nat.mod_upper_bound; lia).
  destruct (Nat.eqb_spec (S N mod 48) 0) as [E|E].
  - assert (S N / 48 = S (N / 48))%nat as -> by lia.
    rewrite seq_S, map_app. cbn [map]. do 2 f_equal. lia.
  - assert (S N / 48 = N / 48)%nat as -> by lia.
    apply app_nil_r.
Qed.

(** ** The input half of the shared state *)

Lemma as_stored_typed p : snapshot_typed p -> as_stored p = p.
Proof.
  intros (Hf & H1 & H2 & H3 & H4 & H5 & H6 & H7).
  destruct p; unfold as_stored; cbn in *.
  rewrite to_uint8_id by exact Hf.
  rewrite !to_int16_id by assumption. reflexivity.
Qed.

Lemma publishSnapshot_wf p g : shared_wf g -> shared_wf (publishSnapshot p g).
Proof.
  intros (Ht & Hc & Ha & Hk). unfold shared_wf, publishSnapshot.
  cbn [target input_cv input_audio input_knobs].
  rewrite !length_insert. auto.
Qed.


Lemma snapshot_of_publish p g :
  shared_wf g -> snapshot_of (publishSnapshot p g) = as_stored p.
Proof.
  intros (_ & Hc & Ha & Hk).
  destruct g as [t tf icv iau ikn ifl rdy]. cbn [input_cv input_audio input_knobs] in *.
  explode_list icv Hc. explode_list iau Ha. explode_list ikn Hk.
  reflexivity.
Qed.

Lemma publish_overwrites a b g :
  shared_wf g -> publishSnapshot b (publishSnapshot a g) = publishSnapshot b g.
Proof.
  intros (_ & Hc & Ha & Hk).
  destruct g as [t tf icv iau ikn ifl rdy]. cbn [input_cv input_audio input_knobs] in *.
  explode_list icv Hc. explode_list iau Ha. explode_list ikn Hk.
  reflexivity.
Qed.

Lemma take_unfold g :
  takeSnapshotIfReady g =
    if inputs_ready g then (set_inputs_ready false g, Some (snapshot_of g))
    else (g, None).
Proof. unfold takeSnapshotIfReady. destruct (inputs_ready g); reflexivity. Qed.



(** The audio callback between two reports. *)
Lemma sampler_run_app probe hws1 : forall hws2 c g,
  fst (sampler_run probe (hws1 ++ hws2) c g) =
    fst (sampler_run probe hws2 (fst (fst (sampler_run probe hws1 c g)))
                                (snd (fst (sampler_run probe hws1 c g)))).
Proof.
  induction hws1 as [|hw hws1 IH]; intros hws2 c g; [reflexivity|].
  cbn [app sampler_run].
  destruct (ProcessMainSample probe hw c g) as [[c1 g1] o].
  specialize (IH hws2 c1 g1).
  destruct (sampler_run probe (hws1 ++ hws2) c1 g1) as [st os].
  destruct (sampler_run probe hws1 c1 g1) as [st1 os1].
  exact IH.
Qed.

Lemma sampler_run_quiet probe hws : forall c g,
  c + Z.of_nat (length hws) < INPUT_REPORT_INTERVAL ->
  fst (sampler_run probe hws c g) = (c + Z.of_nat (length hws), g).
Proof.
  unfold INPUT_REPORT_INTERVAL.
  induction hws as [|hw hws IH]; intros c g Hc.
  - cbn. f_equal. lia.
  - cbn [sampler_run length] in *. unfold ProcessMainSample, INPUT_REPORT_INTERVAL.
    cbn [readTargets].
    replace (48 <=? c + 1) with false by (symmetry; apply Z.leb_gt; lia).
    specialize (IH (c + 1) g ltac:(lia)).
    destruct (sampler_run probe hws (c + 1) g) as [st os].
    cbn [fst] in *. rewrite IH. f_equal. lia.
Qed.

(** One report period: 47 quiet samples, then the sample that publishes. *)
Lemma sampler_run_period probe hws hw g :
  length hws = 47%nat ->
  fst (sampler_run probe (hws ++ [hw]) 0 g) =
    (0, publishSnapshot (sample_inputs probe hw) g).
Proof.
  intros Hlen. rewrite sampler_run_app.
  assert (fst (sampler_run probe hws 0 g) = (47, g)) as ->.
  { rewrite sampler_run_quiet; rewrite Hlen; [reflexivity|].
    unfold INPUT_REPORT_INTERVAL. lia. }
  reflexivity.
Qed.

(** ** Where the stores of the input block fall *)

(** The flag returned beside the state says exactly whether the stores of
    lines 126-135 were made: with it the globals are those stores applied
    to the globals before, without it they are untouched. *)
Lemma ProcessMainSample_stores probe hw c g :
  snd (snd (ProcessMainSample probe hw c g)) = (INPUT_REPORT_INTERVAL <=? c + 1) /\
  fst (ProcessMainSample probe hw c g) =
    (if snd (snd (ProcessMainSample probe hw c g))
     then (0, publishSnapshot (sample_inputs probe hw) g)
     else (c + 1, g)).
Proof.
  unfold ProcessMainSample. cbn [readTargets].
  destruct (INPUT_REPORT_INTERVAL <=? c + 1); split; reflexivity.
Qed.

Lemma succ_mod_48 n :
  (S n mod 48 = if (n mod 48 =? 47)%nat then 0 else S (n mod 48))%nat.
Proof.
  assert (n mod 48 < 48)%nat as Hlt by (apply Nat.mod_upper_bound; lia).
  pose proof (Nat.div_mod_eq n 48) as Hn.
  destruct (Nat.eqb_spec (n mod 48) 47) as [E|E].
  - symmetry. apply (Nat.mod_unique _ _ (S (n / 48))); lia.
  - symmetry. apply (Nat.mod_unique _ _ (n / 48)); lia.
Qed.

Lemma sampler_run_counter probe hws : forall cn g,
  (cn < 48)%nat ->
  fst (fst (sampler_run probe hws (Z.of_nat cn) g)) =
    Z.of_nat ((cn + length hws) mod 48).
Proof.
  induction hws as [|hw hws IH]; intros cn g Hcn.
  - cbn [sampler_run fst length]. rewrite Nat.add_0_r, Nat.mod_small; auto.
  - cbn [sampler_run length].
    unfold ProcessMainSample, INPUT_REPORT_INTERVAL. cbn [readTargets].
    replace (cn + S (length hws))%nat with (S cn + length hws)%nat by lia.
    destruct (Nat.eq_dec cn 47%nat) as [E|E].
    + replace (48 <=? Z.of_nat cn + 1) with true by (symmetry; apply Z.leb_le; lia).
      specialize (IH 0%nat (publishSnapshot (sample_inputs probe hw) g) ltac:(lia)).
      change (Z.of_nat 0) with 0 in IH.
      destruct (sampler_run probe hws 0 _) as [st os]. cbn [fst] in *.
      rewrite IH. subst cn. f_equal.
      replace (48 + length hws)%nat with (length hws + 1 * 48)%nat by lia.
      now rewrite Nat.Div0.mod_add.
    + replace (48 <=? Z.of_nat cn + 1) with false by (symmetry; apply Z.leb_gt; lia).
      specialize (IH (S cn) g ltac:(lia)).
      replace (Z.of_nat (S cn)) with (Z.of_nat cn + 1) in IH by lia.
      destruct (sampler_run probe hws (Z.of_nat cn + 1) g) as [st os].
      exact IH.
Qed.

Lemma sampler_run_wf probe hws : forall c g,
  shared_wf g -> shared_wf (snd (fst (sampler_run probe hws c g))).
Proof.
  induction hws as [|hw hws IH]; intros c g Hwf; [exact Hwf|].
  cbn [sampler_run].
  pose proof (ProcessMainSample_stores probe hw c g) as [_ Hst].
  destruct (ProcessMainSample probe hw c g) as [[c1 g1] [o pub]].
  cbn [fst snd] in Hst.
  assert (shared_wf g1) as Hwf1.
  { destruct pub; inversion Hst; subst; [now apply publishSnapshot_wf|exact Hwf]. }
  specialize (IH c1 g1 Hwf1).
  destruct (sampler_run probe hws c1 g1) as [st os]. exact IH.
Qed.

(** Sample number [k + 1] of a run that started with [reportCounter = cn]:
    when [cn + k + 1] is a multiple of 48 the globals after it are the
    stores of lines 126-135, with the readings of that very sample, made
    on the globals before it; otherwise the sample leaves the globals as
    they were. *)
Lemma sampler_run_tick probe hws cn g k hw :
  (cn < 48)%nat ->
  hws !! k = Some hw ->
  fst (sampler_run probe (take (S k) hws) (Z.of_nat cn) g) =
    (if ((cn + S k) mod 48 =? 0)%nat
     then (0, publishSnapshot (sample_inputs probe hw)
                (snd (fst (sampler_run probe (take k hws) (Z.of_nat cn) g))))
     else (Z.of_nat ((cn + S k) mod 48),
           snd (fst (sampler_run probe (take k hws) (Z.of_nat cn) g)))).
Proof.
  intros Hcn Hk.
  assert (k < length hws)%nat as Hlt by (apply lookup_lt_is_Some; eauto).
  rewrite (take_S_r _ _ _ Hk), sampler_run_app.
  pose proof (sampler_run_counter probe (take k hws) cn g Hcn) as Hc.
  rewrite length_take, Nat.min_l in Hc by lia.
  destruct (sampler_run probe (take k hws) (Z.of_nat cn) g) as [[c1 g1] os].
  cbn [fst snd] in *. subst c1.
  replace (cn + S k)%nat with (S (cn + k)) by lia.
  rewrite succ_mod_48.
  assert ((cn + k) mod 48 < 48)%nat by (apply Nat.mod_upper_bound; lia).
  cbn [sampler_run]. unfold ProcessMainSample, INPUT_REPORT_INTERVAL.
  cbn [readTargets].
  destruct (Nat.eqb_spec ((cn + k) mod 48) 47) as [E|E].
  - replace (48 <=? _) with true by (symmetry; apply Z.leb_le; lia).
    reflexivity.
  - replace (48 <=? _) with false by (symmetry; apply Z.leb_gt; lia).
    cbn [fst Nat.eqb]. f_equal. lia.
Qed.

(** After a run from [reportCounter = 0] the globals are those of the
    last multiple of 48: the stores made at that sample, on the globals
    the run had reached just before it, and nothing since. *)
Lemma sampler_run_last_report probe hws g :
  (48 <= length hws)%nat ->
  exists hw,
    hws !! (48 * (length hws / 48) - 1)%nat = Some hw /\
    fst (sampler_run probe hws 0 g) =
      (Z.of_nat (length hws mod 48),
       publishSnapshot (sample_inputs probe hw)
         (snd (fst (sampler_run probe
                      (take (48 * (length hws / 48) - 1) hws) 0 g)))).
Proof.
  intros HN.
  pose proof (Nat.div_mod_eq (length hws) 48) as Hdm.
  assert (length hws mod 48 < 48)%nat as Hm by (apply Nat.mod_upper_bound; lia).
  set (m := (48 * (length hws / 48))%nat) in *.
  assert (1 <= length hws / 48)%nat as Hq
    by (apply Nat.div_le_lower_bound; lia).
  assert (m - 1 < length hws)%nat as Hlt by lia.
  destruct (lookup_lt_is_Some_2 hws (m - 1)%nat Hlt) as [hw Hhw].
  exists hw. split; [exact Hhw|].
  rewrite <- (take_drop m hws) at 1. rewrite sampler_run_app.
  pose proof (sampler_run_tick probe hws 0 g (m - 1) hw ltac:(lia) Hhw) as Ht.
  replace (S (m - 1)) with m in Ht by lia.
  replace ((0 + m) mod 48)%nat with 0%nat in Ht
    by (unfold m; rewrite Nat.add_0_l, Nat.mul_comm, Nat.Div0.mod_mul; reflexivity).
  cbn [Nat.eqb] in Ht. change (Z.of_nat 0) with 0 in Ht.
  rewrite Ht. cbn [fst snd].
  rewrite sampler_run_quiet.
  - rewrite length_drop. f_equal. lia.
  - rewrite length_drop. unfold INPUT_REPORT_INTERVAL. lia.
Qed.

(** C4.  Over N samples starting with [reportCounter = 0], the input
    block (the body of [publishSnapshot]) runs exactly N / 48 times, at
    the samples numbered 48, 96, 144, and so on.  The flag that counts
    the runs is tied to the globals: a sample returns it exactly when it
    has made the stores of lines 126-135.  Sample by sample, the globals
    after sample k + 1 are those stores, with the readings of that
    sample, applied to the globals after sample k when k + 1 is a
    multiple of 48, and the globals after sample k otherwise.  So fewer
    than 48 samples leave the globals alone, and from 48 samples on they
    hold, with [inputs_ready] set, the readings of the last sample whose
    number is a multiple of 48. *)
Theorem decimation probe hws g :
  let os := snd (sampler_run probe hws 0 g) in
  let N := length hws in
  let after k := fst (sampler_run probe (take k hws) 0 g) in
  INPUT_REPORT_INTERVAL = 48 /\
  length os = N /\
  publish_ticks 0 os = map (fun k => (k * 48)%nat) (seq 1 (N / 48)) /\
  length (publish_ticks 0 os) = (N / 48)%nat /\
  (forall hw c g0,
     fst (ProcessMainSample probe hw c g0) =
       if snd (snd (ProcessMainSample probe hw c g0))
       then (0, publishSnapshot (sample_inputs probe hw) g0)
       else (c + 1, g0)) /\
  (forall k hw, hws !! k = Some hw ->
     after (S k) =
       if (S k mod 48 =? 0)%nat
       then (0, publishSnapshot (sample_inputs probe hw) (snd (after k)))
       else (Z.of_nat (S k mod 48), snd (after k))) /\
  ((N < 48)%nat -> fst (sampler_run probe hws 0 g) = (Z.of_nat N, g)) /\
  ((48 <= N)%nat ->
     exists hw,
       hws !! (48 * (N / 48) - 1)%nat = Some hw /\
       fst (sampler_run probe hws 0 g) =
         (Z.of_nat (N mod 48),
          publishSnapshot (sample_inputs probe hw)
                          (snd (after (48 * (N / 48) - 1)%nat))) /\
       inputs_ready (snd (fst (sampler_run probe hws 0 g))) = true /\
       (shared_wf g ->
        snapshot_of (snd (fst (sampler_run probe hws 0 g))) =
          as_stored (sample_inputs probe hw))).
Proof.
  intros os N after. subst os N after. cbv beta.
  assert (publish_ticks 0 (snd (sampler_run probe hws 0 g)) =
          map (fun k => (k * 48)%nat) (seq 1 (length hws / 48))) as Hticks.
  { rewrite publish_ticks_filter by reflexivity. apply multiples_of_48. }
  split; [reflexivity|]. split; [apply sampler_run_length|].
  split; [exact Hticks|].
  split; [rewrite Hticks, length_map, length_seq; reflexivity|].
  split; [intros hw c g0; apply ProcessMainSample_stores|].
  split; [|split].
  - intros k hw Hk.
    pose proof (sampler_run_tick probe hws 0 g k hw ltac:(lia) Hk) as Ht.
    rewrite Nat.add_0_l in Ht. exact Ht.
  - intros HN.
    pose proof (sampler_run_quiet probe hws 0 g) as Hq.
    rewrite Z.add_0_l in Hq. apply Hq. unfold INPUT_REPORT_INTERVAL. lia.
  - intros HN.
    destruct (sampler_run_last_report probe hws g HN) as (hw & Hhw & Hrun).
    exists hw. split; [exact Hhw|]. split; [exact Hrun|].
    rewrite Hrun. cbn [snd]. split; [reflexivity|].
    intros Hwf. apply snapshot_of_publish. now apply sampler_run_wf.
Qed.

Lemma decimation_witness :
  let quiet := mkHw 0 0 0 0 0 0 0 false false 1 (fun _ => true) in
  let hw := mkHw 100 (-50) 7 8 4095 0 2048 true false 2 (fun _ => true) in
  let hws := repeat quiet 95 ++ [hw] ++ repeat quiet 4 in
  let final := fst (sampler_run false hws 0 shared_init) in
  publish_ticks 0 (snd (sampler_run false hws 0 shared_init)) = [48; 96]%nat /\
  final = (4, publishSnapshot (mkSnapshot 9 100 (-50) 7 8 4095 0 2048) shared_init).
Proof.
  intros quiet hw hws final.
  destruct (decimation false hws shared_init)
    as (_ & _ & Hticks & _ & _ & _ & _ & Hlast).
  split.
  - etransitivity; [exact Hticks|]. vm_compute. reflexivity.
  - destruct Hlast as (hw' & Hhw & Hrun & _); [vm_compute; lia|].
    subst final. etransitivity; [exact Hrun|].
    vm_compute in Hhw. injection Hhw as <-. vm_compute. reflexivity.
Defined.

(** C5.  After two publishes with no take in between, a take returns the
    eight values of the second publish (as stored; unchanged when they
    already have the types of the globals).  The globals are then exactly
    what they would be had the first publish never happened, so nothing
    that runs afterwards, on the channel or on the whole firmware, can
    tell the difference: no flag and no counter keeps track of it.  The
    same holds for the audio callback as a whole: after two report
    periods [reportCounter] and the globals are what one period alone
    would have left. *)
Theorem latest_wins a b g :
  shared_wf g ->
  let g2 := publishSnapshot b (publishSnapshot a g) in
  snd (takeSnapshotIfReady g2) = Some (as_stored b) /\
  (snapshot_typed b -> snd (takeSnapshotIfReady g2) = Some b) /\
  g2 = publishSnapshot b g /\
  (forall ops, chan_run ops g2 = chan_run ops (publishSnapshot b g)) /\
  (forall probe ins buf pos c,
     sys_run probe ins (mkSystem (mkLoop buf pos g2) c) =
     sys_run probe ins (mkSystem (mkLoop buf pos (publishSnapshot b g)) c)) /\
  (forall probe hws1 hw1 hws2 hw2,
     length hws1 = 47%nat -> length hws2 = 47%nat ->
     fst (sampler_run probe ((hws1 ++ [hw1]) ++ (hws2 ++ [hw2])) 0 g) =
     fst (sampler_run probe (hws2 ++ [hw2]) 0 g)).
Proof.
  intros Hwf g2.
  assert (g2 = publishSnapshot b g) as Heq by now apply publish_overwrites.
  assert (snd (takeSnapshotIfReady g2) = Some (as_stored b)) as Htake.
  { rewrite Heq, take_unfold.
    change (inputs_ready (publishSnapshot b g)) with true. cbn [snd].
    now rewrite snapshot_of_publish. }
  split; [exact Htake|]. split; [|split; [exact Heq|split; [|split]]].
  - intros Hb. rewrite Htake. now rewrite as_stored_typed.
  - intros ops. now rewrite Heq.
  - intros probe ins buf pos c. now rewrite Heq.
  - intros probe hws1 hw1 hws2 hw2 H1 H2.
    rewrite sampler_run_app, (sampler_run_period probe hws1 hw1 g H1).
    cbn [fst snd]. rewrite !sampler_run_period by exact H2.
    now rewrite publish_overwrites.
Qed.

Lemma latest_wins_witness :
  let a := mkSnapshot 1 10 20 30 40 50 60 70 in
  let b := mkSnapshot 6 100 (-50) 0 0 4095 0 2048 in
  snd (takeSnapshotIfReady (publishSnapshot b (publishSnapshot a shared_init)))
    = Some b.
Proof.
  intros a b.
  destruct (latest_wins a b shared_init) as (_ & H & _).
  - unfold shared_wf. cbn. auto.
  - apply H. unfold snapshot_typed, is_uint8, is_int16, b.
    cbn [flags cv0 cv1 audio0 audio1 knob0 knob1 knob2]. lia.
Defined.

(** ** The accesses of the two cores, one at a time *)








(** ** Invariants of the globals *)

Lemma set_target_inv i v g : shared_inv g -> shared_inv (set_target i v g).
Proof.
  intros [(Ht & Hc & Ha & Hk) Hty]. unfold shared_inv, shared_wf, targets_typed.
  cbn [set_target target input_cv input_audio input_knobs].
  rewrite length_insert. repeat split; auto.
  apply Forall_insert; [exact Hty|apply to_int16_range].
Qed.

Lemma setTargets_inv f c1 c2 c3 c4 g :
  shared_inv g -> shared_inv (setTargets f c1 c2 c3 c4 g).
Proof.
  intros H. unfold setTargets. do 4 apply set_target_inv. exact H.
Qed.

Lemma usb_rx_shared_inv r s :
  shared_inv (glob s) -> shared_inv (glob (fst (usb_rx r s))).
Proof.
  intros H. unfold usb_rx. destruct r as [|c]; [exact H|].
  destruct (_ && _); [exact H|].
  destruct (_ && _); [exact H|].
  destruct (_ =? _); [|exact H].
  cbn [fst glob]. now apply setTargets_inv.
Qed.

Lemma usb_tx_shared_inv s :
  shared_inv (glob s) -> shared_inv (glob (fst (usb_tx s))).
Proof.
  intros H. unfold usb_tx. rewrite take_unfold.
  destruct (inputs_ready (glob s)); exact H.
Qed.

Lemma usb_loop_body_shared_inv r s :
  shared_inv (glob s) -> shared_inv (glob (fst (usb_loop_body r s))).
Proof.
  intros H. unfold usb_loop_body.
  pose proof (usb_rx_shared_inv r s H) as H1.
  destruct (usb_rx r s) as [s1 e]. cbn [fst] in H1.
  destruct (continues e); [exact H1|].
  pose proof (usb_tx_shared_inv s1 H1) as H2.
  destruct (usb_tx s1) as [s2 out]. exact H2.
Qed.

Lemma ProcessMainSample_shared_inv probe hw c g :
  shared_inv g -> shared_inv (snd (fst (ProcessMainSample probe hw c g))).
Proof.
  intros [Hwf Hty]. unfold ProcessMainSample. cbn [readTargets].
  destruct (INPUT_REPORT_INTERVAL <=? c + 1); cbn [fst snd]; [|now split].
  split; [now apply publishSnapshot_wf|exact Hty].
Qed.

Lemma reachable_shared_inv probe s :
  reachable probe s -> shared_inv (glob (core0 s)).
Proof.
  induction 1 as [buf Hlen | s i Hr IH].
  - split; [easy|]. unfold targets_typed. cbn.
    repeat (constructor; [unfold is_int16; lia|]). constructor.
  - destruct i as [hw | r]; unfold sys_step.
    + pose proof (ProcessMainSample_shared_inv probe hw (counter s) _ IH) as H.
      destruct (ProcessMainSample probe hw (counter s) (glob (core0 s)))
        as [[c g] [o pub]]. exact H.
    + pose proof (usb_loop_body_shared_inv r (core0 s) IH) as H.
      destruct (usb_loop_body r (core0 s)) as [l [e out]]. exact H.
Qed.

Lemma reachable_run probe ins : forall s,
  reachable probe s -> reachable probe (fst (sys_run probe ins s)).
Proof.
  induction ins as [|i ins IH]; intros s Hr; [exact Hr|].
  cbn [sys_run].
  pose proof (reach_step probe s i Hr) as H1.
  destruct (sys_step probe i s) as [s1 o]. cbn [fst] in H1.
  specialize (IH s1 H1). destruct (sys_run probe ins s1) as [s2 os].
  exact IH.
Qed.

(** ** The activity LEDs *)

Lemma led_level_spec t :
  led_level t = (2 * Z.abs t) mod 65536.
Proof.
  unfold led_level, to_uint16.
  destruct (Z.ltb_spec t 0); f_equal; lia.
Qed.

(** The one 16-bit target whose doubled magnitude does not fit 16 bits. *)
Lemma led_level_min_int16 : led_level (-32768) = 0.
Proof. reflexivity. Qed.

(** A target of -2048, the low end of the card's native range, gives
    4096. *)
Lemma led_level_native_min : led_level (-2048) = 4096.
Proof. reflexivity. Qed.

(** C10, as it holds.  In every reachable state, the value an audio
    sample passes to [LedBrightness] for channel i is twice the absolute
    value of [target[i]] cut to 16 bits; that is exactly twice the
    absolute value unless the target is -32768, and it lies in 0..4095
    whenever the target lies in -2047..2047. *)
Theorem led_brightness_spec probe s hw (i : nat) :
  reachable probe s ->
  (i < 4)%nat ->
  let g := glob (core0 s) in
  let t := target g !!! i in
  let led := LedBrightness (fst (snd (ProcessMainSample probe hw (counter s) g))) !!! i in
  is_int16 t /\
  led = (2 * Z.abs t) mod 65536 /\
  (t <> -32768 -> led = 2 * Z.abs t) /\
  (-2047 <= t <= 2047 -> 0 <= led <= 4095).
Proof.
  intros Hr Hi g t led.
  pose proof (reachable_shared_inv probe s Hr) as [(Hlen & _) Hty].
  fold g in Hlen, Hty.
  assert (is_int16 t) as Ht.
  { unfold targets_typed in Hty. rewrite Forall_lookup in Hty.
    apply (Hty i). apply list_lookup_lookup_total_lt. lia. }
  assert (led = led_level t) as ->.
  { subst led t. unfold ProcessMainSample. cbn [readTargets].
    destruct (INPUT_REPORT_INTERVAL <=? counter s + 1); cbn [fst snd LedBrightness];
      destruct i as [|[|[|[|i]]]]; try lia; reflexivity. }
  rewrite led_level_spec. unfold is_int16 in Ht.
  split; [exact Ht|]. split; [reflexivity|]. split.
  - intros Hmin. apply Z.mod_small. lia.
  - intros Hnom. rewrite Z.mod_small by lia. lia.
Qed.

Lemma led_brightness_spec_witness :
  let s := mkSystem (loop_start (repeat 0 10) shared_init) 0 in
  let s1 := fst (sys_run false
                   (map (fun c => Poll (Char c))
                        [0xC0; 0x00; 0x18; 0xFC; 0; 0; 0; 0; 0; 0]) s) in
  let hw := mkHw 0 0 0 0 0 0 0 false false 0 (fun _ => false) in
  target (glob (core0 s1)) !!! 0%nat = -1000 /\
  LedBrightness (fst (snd (ProcessMainSample false hw (counter s1) (glob (core0 s1)))))
    !!! 0%nat = 2000.
Proof.
  intros s s1 hw. split; [reflexivity|].
  destruct (led_brightness_spec false s1 hw 0%nat) as (_ & _ & H & _).
  - apply reachable_run. apply reach_start. reflexivity.
  - lia.
  - rewrite H; [reflexivity|]. vm_compute. discriminate.
Defined.

(** C10, as stated, fails: the packet [C0 00 FF 7F 00 00 00 00 00 00]
    sets channel 1 to 32767, and the next audio sample passes 65534 to
    [LedBrightness], far above 4095. *)
Lemma led_brightness_counterexample :
  ~ (forall probe s hw (i : nat),
       reachable probe s -> (i < 4)%nat ->
       let g := glob (core0 s) in
       let t := target g !!! i in
       let led :=
         LedBrightness (fst (snd (ProcessMainSample probe hw (counter s) g))) !!! i in
       led = 2 * Z.abs t /\ 0 <= led <= 4095).
Proof.
  intros H.
  pose (ins := map (fun c => Poll (Char c)) [0xC0; 0x00; 0xFF; 0x7F; 0; 0; 0; 0; 0; 0]).
  pose (s0 := mkSystem (loop_start (repeat 0 10) shared_init) 0).
  assert (reachable false (fst (sys_run false ins s0))) as Hr.
  { apply reachable_run. now apply reach_start. }
  specialize (H false _ (mkHw 0 0 0 0 0 0 0 false false 0 (fun _ => false)) 0%nat Hr).
  specialize (H ltac:(lia)).
  vm_compute in H. destruct H as [_ [_ H]]. apply H. reflexivity.
Qed.

(** ** One iteration of [usb_loop]: reader first, then writer *)

(** When the reader half does not [continue], the writer half runs on the
    state the reader left, and what it sends depends on the input fields
    alone: a pending report goes out whether or not a packet completed. *)
Lemma usb_loop_body_falls_through r s :
  continues (snd (usb_rx r s)) = false ->
  usb_loop_body r s =
    (fst (usb_tx (fst (usb_rx r s))), (snd (usb_rx r s), snd (usb_tx (fst (usb_rx r s))))) /\
  snd (snd (usb_loop_body r s)) =
    (if inputs_ready (glob s) then encode (snapshot_of (glob s)) else []).
Proof.
  intros Hc. unfold usb_loop_body.
  assert (inputs_ready (glob (fst (usb_rx r s))) = inputs_ready (glob s) /\
          snapshot_of (glob (fst (usb_rx r s))) = snapshot_of (glob s)) as [Hr Hs].
  { unfold usb_rx. destruct r as [|c]; [easy|].
    destruct (_ && _); [easy|]. destruct (_ && _); [easy|].
    destruct (_ =? _); easy. }
  destruct (usb_rx r s) as [s1 e]. cbn [fst snd] in *. rewrite Hc.
  unfold usb_tx. rewrite take_unfold, Hr.
  destruct (inputs_ready (glob s)); cbn [fst snd]; rewrite <- ?Hs; easy.
Qed.

(** The two [continue] statements leave the iteration before the writer
    half: nothing is sent and a pending report stays pending. *)
Lemma usb_loop_body_continue r s :
  continues (snd (usb_rx r s)) = true ->
  snd (snd (usb_loop_body r s)) = [] /\
  inputs_ready (glob (fst (usb_loop_body r s))) = inputs_ready (glob s).
Proof.
  intros Hc. unfold usb_loop_body.
  assert (snd (usb_rx r s) = RxResync \/ snd (usb_rx r s) = RxSkip ->
          glob (fst (usb_rx r s)) = glob s) as Hg.
  { unfold usb_rx. destruct r as [|c]; [easy|].
    destruct (_ && _); [easy|]. destruct (_ && _); [easy|].
    destruct (_ =? _); cbn [snd]; intros [H|H]; discriminate H. }
  destruct (usb_rx r s) as [s1 e]. cbn [fst snd] in *. rewrite Hc.
  cbn [fst snd]. split; [reflexivity|].
  rewrite Hg; [reflexivity|]. destruct e; try discriminate Hc; tauto.
Qed.

(** While [usb_loop] waits for a sync byte, a stream of other bytes keeps
    it in the [continue] of line 177: however long the stream, nothing
    is sent and the state does not move. *)
Lemma usb_loop_skips cs : forall s,
  pktPos s = 0 ->
  Forall (fun c => to_uint8 c <> SYNC_HOST_TO_DEVICE) cs ->
  usb_loop (map Char cs) s = (s, map (fun _ => (RxSkip, [])) cs).
Proof.
  induction cs as [|c cs IH]; intros s Hp Hcs; [reflexivity|].
  apply Forall_cons_iff in Hcs as [Hc Hcs].
  cbn [map usb_loop]. unfold usb_loop_body.
  rewrite rx_skip by assumption. cbn [continues].
  rewrite IH by assumption. reflexivity.
Qed.

(** An example.  With a report pending and the reader waiting for a
    sync byte, an iteration whose read times out sends the 16-byte
    packet, and so does one that reads the first byte of a command
    packet; an iteration that reads the byte 0x11 sends nothing and
    leaves the report pending, and so does every further such iteration.
    In the middle of a packet the same happens for a 0xC0 byte. *)
Lemma report_withheld_on_continue :
  let p := mkSnapshot 0x06 100 (-50) 0 0 4095 0 2048 in
  let pkt := [0xC1; 0x06; 0x64; 0x00; 0xCE; 0xFF; 0x00; 0x00;
              0x00; 0x00; 0xFF; 0x0F; 0x00; 0x00; 0x00; 0x08] in
  let s := loop_start (repeat 0 10) (publishSnapshot p shared_init) in
  let mid := fst (usb_loop (map Char [0xC0; 0x00; 0x05]) (loop_start (repeat 0 10) shared_init)) in
  let mid := mkLoop (pktBuf mid) (pktPos mid) (publishSnapshot p (glob mid)) in
  snd (usb_loop_body Timeout s) = (RxNone, pkt) /\
  snd (usb_loop_body (Char 0xC0) s) = (RxStore, pkt) /\
  snd (usb_loop_body (Char 0x11) s) = (RxSkip, []) /\
  inputs_ready (glob (fst (usb_loop_body (Char 0x11) s))) = true /\
  sent (snd (usb_loop (map Char (repeat 0x11 1000)) s)) = [] /\
  pktPos mid = 3 /\
  snd (usb_loop_body (Char 0x07) mid) = (RxStore, pkt) /\
  snd (usb_loop_body (Char 0xC0) mid) = (RxResync, []) /\
  inputs_ready (glob (fst (usb_loop_body (Char 0xC0) mid))) = true.
Proof. vm_compute. repeat split. Qed.

(** * Further properties of the firmware *)

(** ** What a run of [usb_loop] leaves in the targets *)

Lemma last_cons {A} (a d : A) l : List.last (a :: l) d = List.last l a.
Proof.
  revert a d. induction l as [|b l IH]; intros a d; [reflexivity|].
  change (List.last (a :: b :: l) d) with (List.last (b :: l) d).
  rewrite (IH b d), (IH b a). reflexivity.
Qed.

Lemma usb_rx_glob r s :
  glob (fst (usb_rx r s)) =
    match snd (usb_rx r s) with
    | RxFrame f ch =>
      setTargets f (ch !!! 0%nat) (ch !!! 1%nat) (ch !!! 2%nat) (ch !!! 3%nat) (glob s)
    | _ => glob s
    end.
Proof.
  unfold usb_rx. destruct r as [|c]; [reflexivity|].
  destruct (_ && _); [reflexivity|].
  destruct (_ && _); [reflexivity|].
  destruct (_ =? _); reflexivity.
Qed.

Lemma usb_rx_frame_shape r s f ch :
  snd (usb_rx r s) = RxFrame f ch ->
  exists c1 c2 c3 c4,
    ch = [c1; c2; c3; c4] /\
    is_int16 c1 /\ is_int16 c2 /\ is_int16 c3 /\ is_int16 c4.
Proof.
  unfold usb_rx. destruct r as [|c]; [discriminate|].
  destruct (_ && _); [discriminate|].
  destruct (_ && _); [discriminate|].
  destruct (_ =? _); [|discriminate].
  cbn [snd]. intros H. injection H as _ <-.
  do 4 eexists. split; [reflexivity|].
  unfold le_int16, is_int16. repeat split; apply to_int16_range.
Qed.

Lemma setTargets_read f c1 c2 c3 c4 g :
  shared_wf g ->
  readTargets (setTargets f c1 c2 c3 c4 g) =
    (to_uint8 f, [to_int16 c1; to_int16 c2; to_int16 c3; to_int16 c4]).
Proof.
  intros (Ht & _). destruct g as [t tf icv iau ikn ifl rdy].
  cbn [target] in Ht. explode_list t Ht. reflexivity.
Qed.

Lemma setTargets_wf f c1 c2 c3 c4 g :
  shared_wf g -> shared_wf (setTargets f c1 c2 c3 c4 g).
Proof.
  intros (Ht & Hc & Ha & Hk). unfold shared_wf, setTargets, set_target, set_target_flags.
  cbn [target input_cv input_audio input_knobs]. rewrite !length_insert. auto.
Qed.

Lemma usb_loop_body_wf r s :
  shared_wf (glob s) -> shared_wf (glob (fst (usb_loop_body r s))).
Proof.
  intros H. unfold usb_loop_body.
  pose proof (usb_rx_glob r s) as Hg.
  destruct (usb_rx r s) as [s1 e]. cbn [fst snd] in Hg.
  assert (shared_wf (glob s1)) as H1.
  { rewrite Hg. destruct e; auto. now apply setTargets_wf. }
  destruct (continues e); [exact H1|].
  unfold usb_tx. rewrite take_unfold.
  destruct (inputs_ready (glob s1)); exact H1.
Qed.

(** One iteration either completes a packet, and then the targets are
    that packet, or leaves the targets alone. *)
Lemma usb_loop_body_targets r s :
  shared_wf (glob s) ->
  readTargets (glob (fst (usb_loop_body r s))) =
    match fst (snd (usb_loop_body r s)) with
    | RxFrame f ch => as_applied (f, ch)
    | _ => readTargets (glob s)
    end.
Proof.
  intros Hwf. unfold usb_loop_body.
  pose proof (usb_rx_glob r s) as Hg.
  pose proof (usb_rx_frame_shape r s) as Hshape.
  destruct (usb_rx r s) as [s1 e]. cbn [fst snd] in Hg, Hshape.
  assert (readTargets (glob s1) =
          match e with
          | RxFrame f ch => as_applied (f, ch)
          | _ => readTargets (glob s)
          end) as H1.
  { rewrite Hg. destruct e; try reflexivity.
    destruct (Hshape f ch eq_refl) as (c1 & c2 & c3 & c4 & -> & H1 & H2 & H3 & H4).
    cbn [lookup_total list_lookup_total]. rewrite setTargets_read by exact Hwf.
    unfold is_int16 in *. rewrite !to_int16_id by assumption. reflexivity. }
  destruct (continues e) eqn:Hc; cbn [fst snd]; [exact H1|].
  pose proof (usb_tx_targets s1) as Htx.
  destruct (usb_tx s1) as [s2 out]. cbn [fst snd] in *. now rewrite Htx.
Qed.

Lemma usb_loop_targets_last rs : forall s,
  shared_wf (glob s) ->
  readTargets (glob (fst (usb_loop rs s))) =
    List.last (map as_applied (frames (events (snd (usb_loop rs s)))))
              (readTargets (glob s)).
Proof.
  induction rs as [|r rs IH]; intros s Hwf; [reflexivity|].
  cbn [usb_loop].
  pose proof (usb_loop_body_targets r s Hwf) as Hstep.
  pose proof (usb_loop_body_wf r s Hwf) as Hwf1.
  destruct (usb_loop_body r s) as [s1 [e out]]. cbn [fst snd] in Hstep, Hwf1.
  specialize (IH s1 Hwf1).
  destruct (usb_loop rs s1) as [s2 os]. cbn [fst snd events map] in *.
  fold (events os). rewrite IH, Hstep.
  destruct e; cbn [frames map]; try reflexivity.
  now rewrite last_cons.
Qed.

(** X1.  After any run of [usb_loop], [target_flags] and [target] hold
    the last packet completed during the run, and are untouched when
    none was completed. *)
Theorem targets_hold_latest_frame rs s :
  shared_wf (glob s) ->
  readTargets (glob (fst (usb_loop rs s))) =
    List.last (map as_applied (frames (events (snd (usb_loop rs s)))))
              (readTargets (glob s)).
Proof. apply usb_loop_targets_last. Qed.

Lemma targets_hold_latest_frame_witness :
  readTargets (glob (fst (usb_loop
    (map Char [0xC0; 1; 0x10; 0; 0; 0; 0; 0; 0; 0;
               0x55; 0xC0; 2; 0x20; 0; 0; 0; 0; 0; 0; 0; 0xC0; 3])
    (loop_start (repeat 0 10) shared_init))))
  = (2, [32; 0; 0; 0]).
Proof.
  rewrite targets_hold_latest_frame.
  - reflexivity.
  - unfold shared_wf. cbn. auto.
Defined.

(** ** Runs of [usb_loop] in pieces *)

Lemma usb_loop_app rs1 : forall rs2 s,
  usb_loop (rs1 ++ rs2) s =
    (fst (usb_loop rs2 (fst (usb_loop rs1 s))),
     snd (usb_loop rs1 s) ++ snd (usb_loop rs2 (fst (usb_loop rs1 s)))).
Proof.
  induction rs1 as [|r rs1 IH]; intros rs2 s.
  - cbn. now destruct (usb_loop rs2 s).
  - cbn [app usb_loop]. destruct (usb_loop_body r s) as [s1 o].
    rewrite IH. destruct (usb_loop rs1 s1) as [s2 os]. reflexivity.
Qed.

Lemma usb_loop_parser_inv rs : forall s,
  parser_inv s -> parser_inv (fst (usb_loop rs s)).
Proof.
  induction rs as [|r rs IH]; intros s H; [exact H|].
  cbn [usb_loop].
  pose proof (usb_loop_body_parser_inv r s H) as H1.
  destruct (usb_loop_body r s) as [s1 o]. cbn [fst] in H1.
  specialize (IH s1 H1). now destruct (usb_loop rs s1).
Qed.

(** X2.  While [usb_loop] waits for a sync byte, bytes other than 0xC0
    are dropped without a trace: the run continues from the same state
    as if they had never arrived, and nothing is sent while they are
    read. *)
Theorem leading_garbage_is_dropped cs rs s :
  pktPos s = 0 ->
  Forall (fun c => to_uint8 c <> 0xC0) cs ->
  usb_loop (map Char cs ++ rs) s =
    (fst (usb_loop rs s),
     map (fun _ => (RxSkip, [])) cs ++ snd (usb_loop rs s)).
Proof.
  intros Hp Hcs. rewrite usb_loop_app, usb_loop_skips by assumption.
  reflexivity.
Qed.

Lemma leading_garbage_is_dropped_witness :
  frames (events (snd (usb_loop
    (map Char [0x11; 0x22; 0x33] ++
     map Char [0xC0; 0x00; 0x00; 0x08; 0; 0; 0; 0; 0; 0])
    (loop_start (repeat 0 10) shared_init))))
  = [(0, [2048; 0; 0; 0])].
Proof.
  rewrite leading_garbage_is_dropped.
  - reflexivity.
  - reflexivity.
  - repeat (constructor; [vm_compute; discriminate|]); constructor.
Defined.

(** ** No more than one packet per ten bytes *)

Lemma usb_loop_body_budget r s :
  parser_inv s ->
  10 * Z.of_nat (length (frames [fst (snd (usb_loop_body r s))]))
    + pktPos (fst (usb_loop_body r s))
  <= pktPos s + Z.of_nat (length (bytes_of [r])).
Proof.
  intros (Hlen & Hpos & _). unfold usb_loop_body.
  assert (10 * Z.of_nat (length (frames [snd (usb_rx r s)]))
            + pktPos (fst (usb_rx r s))
          <= pktPos s + Z.of_nat (length (bytes_of [r]))) as H.
  { unfold usb_rx. destruct r as [|c];
      [cbn [fst snd frames bytes_of length]; lia|].
    destruct (0 <? pktPos s) eqn:Hp;
      destruct (to_uint8 c =? SYNC_HOST_TO_DEVICE) eqn:Hb; cbn [andb negb].
    - apply Z.ltb_lt in Hp. cbn [fst snd frames bytes_of length pktPos]. lia.
    - apply Z.ltb_lt in Hp.
      replace (pktPos s =? 0) with false by (symmetry; apply Z.eqb_neq; lia).
      cbn [andb]. rewrite to_uint8_id by lia. unfold OUTPUT_PACKET_SIZE.
      destruct (pktPos s + 1 =? 10) eqn:Hfull;
        cbn [fst snd frames bytes_of length pktPos]; lia.
    - apply Z.ltb_ge in Hp. assert (pktPos s = 0) as H0 by lia.
      rewrite H0. change (to_uint8 (0 + 1)) with 1.
      change (1 =? OUTPUT_PACKET_SIZE) with false. change (0 =? 0) with true.
      cbn [andb fst snd frames bytes_of length pktPos]. lia.
    - apply Z.ltb_ge in Hp. assert (pktPos s = 0) as H0 by lia.
      rewrite H0. change (0 =? 0) with true.
      cbn [andb fst snd frames bytes_of length pktPos]. lia. }
  destruct (usb_rx r s) as [s1 e]. cbn [fst snd] in *.
  destruct (continues e); cbn [fst snd]; [exact H|].
  pose proof (usb_tx_parser s1) as [_ Hp].
  destruct (usb_tx s1) as [s2 out]. cbn [fst snd] in *. now rewrite Hp.
Qed.

Lemma frames_cons_length e es :
  length (frames (e :: es)) = (length (frames [e]) + length (frames es))%nat.
Proof. destruct e; reflexivity. Qed.

Lemma bytes_of_cons_length r rs :
  length (bytes_of (r :: rs)) = (length (bytes_of [r]) + length (bytes_of rs))%nat.
Proof. destruct r; reflexivity. Qed.

Lemma usb_loop_budget rs : forall s,
  parser_inv s ->
  10 * Z.of_nat (length (frames (events (snd (usb_loop rs s)))))
    + pktPos (fst (usb_loop rs s))
  <= pktPos s + Z.of_nat (length (bytes_of rs)).
Proof.
  induction rs as [|r rs IH]; intros s Hinv; [cbn; lia|].
  cbn [usb_loop].
  pose proof (usb_loop_body_budget r s Hinv) as Hstep.
  pose proof (usb_loop_body_parser_inv r s Hinv) as Hinv1.
  destruct (usb_loop_body r s) as [s1 [e out]]. cbn [fst snd] in Hstep, Hinv1.
  specialize (IH s1 Hinv1).
  destruct (usb_loop rs s1) as [s2 os]. cbn [fst snd] in *.
  unfold events in *. cbn [map fst].
  rewrite frames_cons_length, bytes_of_cons_length. lia.
Qed.

(** X3.  Each completed packet uses up ten bytes of input: over any run
    from a state of [usb_loop], ten times the number of packets
    completed, plus the bytes still buffered at the end, is at most the
    bytes buffered at the start plus the bytes read.  A run that starts
    with an empty buffer completes at most one packet per ten bytes. *)
Theorem frame_budget rs s :
  parser_inv s ->
  let n := Z.of_nat (length (frames (events (snd (usb_loop rs s))))) in
  10 * n + pktPos (fst (usb_loop rs s))
    <= pktPos s + Z.of_nat (length (bytes_of rs)) /\
  (pktPos s = 0 -> n <= Z.of_nat (length (bytes_of rs)) / 10).
Proof.
  intros Hinv n.
  pose proof (usb_loop_budget rs s Hinv) as H. fold n in H.
  pose proof (usb_loop_parser_inv rs s Hinv) as (_ & Hpos & _).
  split; [exact H|]. intros H0.
  apply Z.div_le_lower_bound; lia.
Qed.

Lemma frame_budget_witness :
  let rs := map Char [0xC0; 1; 2; 3; 4; 5; 6; 7; 8; 9; 0xC0; 1; 2; 3; 4] in
  let s := loop_start (repeat 0 10) shared_init in
  Z.of_nat (length (frames (events (snd (usb_loop rs s))))) <= 1.
Proof.
  intros rs s.
  destruct (frame_budget rs s) as [_ H].
  - split; [reflexivity|]. cbn. split; [lia|]. intros H. lia.
  - apply H. reflexivity.
Defined.

Lemma length_bytes_of_chars cs : length (bytes_of (map Char cs)) = length cs.
Proof. induction cs as [|c cs IH]; cbn; [reflexivity|]. now rewrite IH. Qed.

(** ** Recovery after a broken packet *)

Lemma rx_run_payload buf g tl :
  length buf = 10%nat -> length tl = 9%nat ->
  Forall is_uint8 tl ->
  Forall (fun b => b <> SYNC_HOST_TO_DEVICE) tl ->
  rx_run (map Char tl) (mkLoop (<[0%nat := SYNC_HOST_TO_DEVICE]> buf) 1 g) =
    repeat RxStore 8 ++
    [RxFrame (fst (decode_frame (SYNC_HOST_TO_DEVICE :: tl)))
             (snd (decode_frame (SYNC_HOST_TO_DEVICE :: tl)))].
Proof.
  intros Hb Ht Hbytes Hns.
  explode_list tl Ht. explode_list buf Hb.
  repeat match goal with
         | H : Forall _ (_ :: _) |- _ => apply Forall_cons_iff in H; destruct H
         | H : Forall _ [] |- _ => clear H
         end.
  unfold is_uint8 in *.
  cbn [insert list_insert].
  do 9 rx_next. cbn [rx_run].
  rewrite !to_uint8_id by lia. reflexivity.
Qed.

(** The first byte of a packet puts the parser in the same place whether
    it starts a packet or restarts one. *)
Lemma usb_loop_body_sync s :
  parser_inv s ->
  let s1 := fst (usb_loop_body (Char SYNC_HOST_TO_DEVICE) s) in
  pktBuf s1 = <[0%nat := SYNC_HOST_TO_DEVICE]> (pktBuf s) /\
  pktPos s1 = 1 /\
  frames [fst (snd (usb_loop_body (Char SYNC_HOST_TO_DEVICE) s))] = [].
Proof.
  intros (Hlen & Hpos & _). unfold usb_loop_body.
  assert (to_uint8 SYNC_HOST_TO_DEVICE = SYNC_HOST_TO_DEVICE) as Hb by reflexivity.
  destruct (Z.eq_dec (pktPos s) 0) as [H0|H0].
  - rewrite (rx_start _ s H0 Hb). cbn [continues].
    pose proof (usb_tx_parser
      (mkLoop (<[0%nat := SYNC_HOST_TO_DEVICE]> (pktBuf s)) 1 (glob s))) as [H1 H2].
    destruct (usb_tx _) as [s2 out]. cbn [fst snd pktBuf pktPos] in *. auto.
  - rewrite (rx_resync _ s ltac:(lia) Hb). cbn [continues fst snd pktBuf pktPos].
    auto.
Qed.

Lemma usb_loop_clean_packet frame s :
  parser_inv s -> shared_wf (glob s) ->
  Forall is_uint8 frame -> is_packet frame ->
  let run := usb_loop (map Char frame) s in
  frames (events (snd run)) = [decode_frame frame] /\
  readTargets (glob (fst run)) = decode_frame frame /\
  pktPos (fst run) = 0.
Proof.
  intros Hinv Hwf Hbytes (Hlen & Hhd & Htl) run.
  destruct frame as [|b0 tl]; [discriminate Hlen|].
  cbn [head tail] in Hhd, Htl. injection Hhd as ->.
  apply Forall_cons_iff in Hbytes as [_ Hbytes].
  assert (length tl = 9%nat) as Hlen9 by (cbn in Hlen; lia).
  pose proof (usb_loop_body_sync s Hinv) as (Hbuf1 & Hpos1 & Hnof).
  pose proof (usb_loop_body_parser_inv (Char SYNC_HOST_TO_DEVICE) s Hinv) as Hinv1.
  pose proof (usb_loop_targets_last (map Char (SYNC_HOST_TO_DEVICE :: tl)) s Hwf) as Hlast.
  subst run. cbn [map usb_loop] in *.
  destruct (usb_loop_body (Char SYNC_HOST_TO_DEVICE) s) as [s1 [e out]].
  cbn [fst snd] in *.
  pose proof (usb_loop_events (map Char tl) s1) as Hev.
  pose proof (usb_loop_budget (map Char tl) s1 Hinv1) as Hbud.
  pose proof (usb_loop_parser_inv (map Char tl) s1 Hinv1) as (_ & Hposf & _).
  destruct (usb_loop (map Char tl) s1) as [s2 os]. cbn [fst snd] in *.
  assert (frames (events os) =
          [decode_frame (SYNC_HOST_TO_DEVICE :: tl)]) as Hfr.
  { rewrite Hev.
    rewrite (rx_run_same_parser _ s1
               (mkLoop (<[0%nat := SYNC_HOST_TO_DEVICE]> (pktBuf s)) 1 (glob s1)))
      by (cbn [pktBuf pktPos]; assumption).
    destruct Hinv as (Hlen10 & _).
    rewrite rx_run_payload by assumption.
    destruct (decode_frame (SYNC_HOST_TO_DEVICE :: tl)). reflexivity. }
  assert (frames (events ((e, out) :: os)) =
          [decode_frame (SYNC_HOST_TO_DEVICE :: tl)]) as Hall.
  { unfold events in *. cbn [map fst].
    destruct e; cbn [frames] in *; try exact Hfr; discriminate Hnof. }
  split; [exact Hall|]. split.
  - rewrite Hlast, Hall. cbn [map List.last].
    unfold as_applied, decode_frame. cbn [fst snd]. f_equal.
    destruct tl as [|b1 tl']; [discriminate Hlen9|].
    apply Forall_cons_iff in Hbytes as [Hb1 _].
    cbn [lookup_total list_lookup_total]. now apply to_uint8_id.
  - rewrite Hfr in Hbud. rewrite length_bytes_of_chars in Hbud.
    cbn [length] in Hbud. lia.
Qed.

(** X4.  Whatever state earlier traffic left [usb_loop] in, a packet
    whose payload is free of 0xC0 gets through: its ten bytes complete
    exactly one packet, the one read off those bytes, the targets then
    hold its values, and the buffer is empty again.  A broken stream
    costs at most the packet that was in flight. *)
Theorem clean_packet_always_decodes frame s :
  parser_inv s -> shared_wf (glob s) ->
  Forall is_uint8 frame -> is_packet frame ->
  let run := usb_loop (map Char frame) s in
  frames (events (snd run)) = [decode_frame frame] /\
  readTargets (glob (fst run)) = decode_frame frame /\
  pktPos (fst run) = 0.
Proof. apply usb_loop_clean_packet. Qed.

Lemma clean_packet_always_decodes_witness :
  let s := fst (usb_loop (map Char [0xC0; 1; 2; 3])
                         (loop_start (repeat 0 10) shared_init)) in
  let frame := [0xC0; 0x03; 0x00; 0x08; 0xFF; 0xFF; 0x34; 0x12; 0x00; 0xF8] in
  pktPos s = 4 /\
  frames (events (snd (usb_loop (map Char frame) s))) = [(3, [2048; -1; 4660; -2048])] /\
  readTargets (glob (fst (usb_loop (map Char frame) s))) = (3, [2048; -1; 4660; -2048]).
Proof.
  intros s frame. split; [reflexivity|].
  destruct (clean_packet_always_decodes frame s) as (H1 & H2 & _).
  - apply usb_loop_parser_inv. split; [reflexivity|]. cbn. split; lia.
  - unfold shared_wf. cbn. auto.
  - repeat (constructor; [unfold is_uint8; lia|]); constructor.
  - split; [reflexivity|]. split; [reflexivity|].
    repeat (constructor; [unfold SYNC_HOST_TO_DEVICE; lia|]); constructor.
  - split; [exact H1|exact H2].
Defined.

(** ** Every completed packet was received *)

Lemma buffered_store s b :
  parser_inv s ->
  take (S (Z.to_nat (pktPos s))) (<[Z.to_nat (pktPos s) := b]> (pktBuf s))
    = buffered s ++ [b].
Proof.
  intros (Hlen & Hpos & _). unfold buffered.
  rewrite (take_S_r _ _ b).
  - now rewrite take_insert_ge by lia.
  - apply list_lookup_insert_eq. lia.
Qed.

Lemma usb_rx_tracks c s h :
  parser_tracks s h ->
  parser_tracks (fst (usb_rx (Char c) s)) (h ++ [to_uint8 c]) /\
  forall f ch, snd (usb_rx (Char c) s) = RxFrame f ch ->
    exists pre w, h ++ [to_uint8 c] = pre ++ w /\ is_packet w /\
                  (f, ch) = decode_frame w.
Proof.
  intros (Hinv & (pre & Hh) & Hns).
  pose proof (usb_rx_parser_inv (Char c) s Hinv) as Hinv'.
  pose proof Hinv as (Hlen & Hpos & Hsync).
  destruct (Z.eq_dec (to_uint8 c) SYNC_HOST_TO_DEVICE) as [Hb|Hb];
    destruct (Z.eq_dec (pktPos s) 0) as [H0|H0].
  - (* first byte of a packet *)
    rewrite (rx_start c s H0 Hb) in *. cbn [fst snd] in *.
    split; [|discriminate].
    split; [exact Hinv'|]. unfold buffered in *. cbn [pktBuf pktPos].
    rewrite H0 in Hh. change (Z.to_nat 1) with 1%nat.
    change (Z.to_nat 0) with 0%nat in Hh. rewrite take_0, app_nil_r in Hh.
    destruct (pktBuf s) as [|x buf]; [discriminate Hlen|].
    cbn. rewrite take_0. split; [|constructor].
    exists pre. now rewrite Hh, Hb.
  - (* restart *)
    rewrite (rx_resync c s ltac:(lia) Hb) in *. cbn [fst snd] in *.
    split; [|discriminate].
    split; [exact Hinv'|]. unfold buffered. cbn [pktBuf pktPos].
    change (Z.to_nat 1) with 1%nat.
    destruct (pktBuf s) as [|x buf]; [discriminate Hlen|].
    cbn. rewrite take_0. split; [|constructor].
    exists h. now rewrite Hb.
  - (* skipped *)
    rewrite (rx_skip c s H0 Hb) in *. cbn [fst snd] in *.
    split; [|discriminate].
    split; [exact Hinv|]. split; [|exact Hns].
    unfold buffered in *. rewrite H0 in *.
    change (Z.to_nat 0) with 0%nat in *. rewrite take_0 in *.
    exists (h ++ [to_uint8 c]). now rewrite app_nil_r.
  - (* stored *)
    assert (buffered s <> []) as Hne.
    { unfold buffered. destruct (pktBuf s) as [|x buf]; [discriminate Hlen|].
      replace (Z.to_nat (pktPos s)) with (S (Z.to_nat (pktPos s - 1))) by lia.
      discriminate. }
    assert (head (buffered s) = Some SYNC_HOST_TO_DEVICE) as Hhd.
    { unfold buffered. rewrite head_lookup, lookup_take_lt by lia.
      rewrite <- (Hsync ltac:(lia)). apply list_lookup_lookup_total_lt. lia. }
    assert (tail (buffered s ++ [to_uint8 c]) = tail (buffered s) ++ [to_uint8 c])
      as Htl by (destruct (buffered s); [contradiction|reflexivity]).
    assert (Forall (fun b => b <> SYNC_HOST_TO_DEVICE)
                   (tail (buffered s ++ [to_uint8 c]))) as Hns'.
    { rewrite Htl. apply Forall_app. split; [exact Hns|]. now constructor. }
    destruct (Z.eq_dec (pktPos s) 9) as [H9|H9].
    + pose proof (rx_complete c s H9 Hb) as Hrx. cbv zeta in Hrx.
      rewrite Hrx in *. cbn [fst snd] in *.
      assert (<[9%nat := to_uint8 c]> (pktBuf s) = buffered s ++ [to_uint8 c]) as Hw.
      { rewrite <- (buffered_store s (to_uint8 c) Hinv). rewrite H9.
        change (Z.to_nat 9) with 9%nat. rewrite take_ge; [reflexivity|].
        rewrite length_insert. lia. }
      split.
      * split; [exact Hinv'|]. unfold buffered. cbn [pktBuf pktPos].
        change (Z.to_nat 0) with 0%nat. rewrite take_0.
        split; [|constructor]. exists (h ++ [to_uint8 c]). now rewrite app_nil_r.
      * intros f ch Hfr. injection Hfr as <- <-.
        exists pre, (buffered s ++ [to_uint8 c]).
        split; [rewrite Hh; now rewrite app_assoc|]. split.
        -- split; [|split].
           ++ rewrite <- Hw, length_insert. exact Hlen.
           ++ destruct (buffered s); [contradiction|exact Hhd].
           ++ exact Hns'.
        -- rewrite <- Hw. reflexivity.
    + rewrite (rx_store c s ltac:(lia) Hb) in *. cbn [fst snd] in *.
      split; [|discriminate].
      split; [exact Hinv'|].
      assert (buffered (mkLoop (<[Z.to_nat (pktPos s) := to_uint8 c]> (pktBuf s))
                               (pktPos s + 1) (glob s))
              = buffered s ++ [to_uint8 c]) as ->.
      { unfold buffered at 1. cbn [pktBuf pktPos].
        replace (Z.to_nat (pktPos s + 1)) with (S (Z.to_nat (pktPos s))) by lia.
        apply (buffered_store s (to_uint8 c) Hinv). }
      split; [|exact Hns'].
      exists pre. rewrite Hh. now rewrite app_assoc.
Qed.

Lemma rx_run_tracks rs : forall s h fr,
  parser_tracks s h ->
  In fr (frames (rx_run rs s)) ->
  exists pre w post,
    h ++ stream_of rs = pre ++ w ++ post /\ is_packet w /\ fr = decode_frame w.
Proof.
  induction rs as [|[|c] rs IH]; intros s h fr Htr Hin.
  - contradiction.
  - cbn [rx_run usb_rx frames] in Hin. now apply (IH s h fr).
  - cbn [rx_run] in Hin.
    pose proof (usb_rx_tracks c s h Htr) as [Htr' Hfr].
    destruct (usb_rx (Char c) s) as [s1 e]. cbn [fst snd] in *.
    assert (h ++ stream_of (Char c :: rs) = (h ++ [to_uint8 c]) ++ stream_of rs)
      as Hstream by (unfold stream_of; cbn; now rewrite <- app_assoc).
    rewrite Hstream.
    destruct e; cbn [frames] in Hin; try (now apply (IH s1 _ fr Htr' Hin)).
    destruct Hin as [<-|Hin]; [|now apply (IH s1 _ fr Htr' Hin)].
    destruct (Hfr f ch eq_refl) as (pre & w & Hh & Hw & Hdec).
    exists pre, w, (stream_of rs). rewrite Hh, <- app_assoc. auto.
Qed.

(** X5.  [usb_loop] never makes a packet up: every packet completed
    during a run that starts with an empty buffer is read off ten
    consecutive bytes of the input (as converted to [uint8_t]), the
    first of them 0xC0 and the other nine different from 0xC0. *)
Theorem frames_come_from_the_stream rs buf g fr :
  length buf = 10%nat ->
  In fr (frames (events (snd (usb_loop rs (loop_start buf g))))) ->
  exists pre w post,
    stream_of rs = pre ++ w ++ post /\ is_packet w /\ fr = decode_frame w.
Proof.
  intros Hlen Hin. rewrite usb_loop_events in Hin.
  apply (rx_run_tracks rs (loop_start buf g) [] fr); [|exact Hin].
  split; [|split].
  - split; [exact Hlen|]. cbn. split; lia.
  - exists []. reflexivity.
  - unfold buffered. cbn. rewrite take_0. constructor.
Qed.

Lemma frames_come_from_the_stream_witness :
  let rs := map Char [0x11; 0xC0; 0x03; 0x00; 0x08; 0xFF; 0xFF; 0x34; 0x12;
                      0x00; 0xF8; 0x22] in
  exists pre w post,
    stream_of rs = pre ++ w ++ post /\ is_packet w /\
    (3, [2048; -1; 4660; -2048]) = decode_frame w.
Proof.
  intros rs.
  apply (frames_come_from_the_stream rs (repeat 0 10) shared_init).
  - reflexivity.
  - vm_compute. left. reflexivity.
Defined.

(** ** What [usb_loop] writes to the host *)

Lemma lo_byte_range v : is_uint8 (lo_byte v).
Proof. unfold lo_byte. apply to_uint8_range. Qed.

Lemma hi_byte_range v : is_uint8 (hi_byte v).
Proof. unfold hi_byte. apply to_uint8_range. Qed.

Lemma encode_bytes p : is_uint8 (flags p) -> Forall is_uint8 (encode p).
Proof.
  intros Hf. unfold encode.
  repeat (constructor;
          [first [exact Hf | apply lo_byte_range | apply hi_byte_range
                 | unfold is_uint8, SYNC_DEVICE_TO_HOST; lia]|]).
  constructor.
Qed.

(** The round trip of the 16-byte packet for every value the globals can
    hold, not only those in the card's nominal ranges. *)
Lemma decode_encode_typed p :
  snapshot_typed p -> decode_input_packet (encode p) = p.
Proof.
  intros (Hf & H1 & H2 & H3 & H4 & H5 & H6 & H7).
  destruct p as [f c0 c1 a0 a1 k0 k1 k2].
  cbn [flags cv0 cv1 audio0 audio1 knob0 knob1 knob2] in *.
  unfold decode_input_packet, encode.
  cbn [lookup_total list_lookup_total flags cv0 cv1 audio0 audio1 knob0 knob1 knob2].
  rewrite !le_int16_bytes by assumption. reflexivity.
Qed.

Lemma publishSnapshot_inputs_typed p g :
  shared_wf g -> inputs_typed (publishSnapshot p g).
Proof.
  intros (_ & Hc & Ha & Hk).
  destruct g as [t tf icv iau ikn ifl rdy]. cbn [input_cv input_audio input_knobs] in *.
  explode_list icv Hc. explode_list iau Ha. explode_list ikn Hk.
  unfold inputs_typed, publishSnapshot.
  cbn [input_flags input_cv input_audio input_knobs insert list_insert
       flags cv0 cv1 audio0 audio1 knob0 knob1 knob2].
  split; [apply to_uint8_range|].
  repeat split; repeat (constructor; [apply to_int16_range|]); constructor.
Qed.

Lemma usb_rx_inputs r s :
  inputs_ready (glob (fst (usb_rx r s))) = inputs_ready (glob s) /\
  snapshot_of (glob (fst (usb_rx r s))) = snapshot_of (glob s) /\
  (inputs_typed (glob s) -> inputs_typed (glob (fst (usb_rx r s)))).
Proof.
  rewrite usb_rx_glob. destruct (snd (usb_rx r s)); auto.
Qed.

Lemma usb_loop_body_inputs_typed r s :
  inputs_typed (glob s) -> inputs_typed (glob (fst (usb_loop_body r s))).
Proof.
  intros H. unfold usb_loop_body.
  pose proof (usb_rx_inputs r s) as (_ & _ & H1). specialize (H1 H).
  destruct (usb_rx r s) as [s1 e]. cbn [fst] in H1.
  destruct (continues e); [exact H1|].
  unfold usb_tx. rewrite take_unfold.
  destruct (inputs_ready (glob s1)); exact H1.
Qed.

Lemma reachable_inputs_typed probe s :
  reachable probe s -> inputs_typed (glob (core0 s)).
Proof.
  intros Hr. pose proof Hr as Hr'. induction Hr as [buf Hlen | s i Hr IH].
  - unfold inputs_typed, is_uint8. cbn.
    split; [lia|].
    repeat split; repeat (constructor; [unfold is_int16; lia|]); constructor.
  - specialize (IH Hr).
    pose proof (reachable_shared_inv probe s Hr) as [Hwf _].
    destruct i as [hw | r]; unfold sys_step.
    + unfold ProcessMainSample. cbn [readTargets].
      destruct (INPUT_REPORT_INTERVAL <=? counter s + 1); cbn [fst glob core0];
        [now apply publishSnapshot_inputs_typed|exact IH].
    + pose proof (usb_loop_body_inputs_typed r (core0 s) IH) as H.
      destruct (usb_loop_body r (core0 s)) as [l [e out]]. exact H.
Qed.

Lemma inputs_typed_snapshot g :
  shared_wf g -> inputs_typed g -> snapshot_typed (snapshot_of g).
Proof.
  intros (_ & Hc & Ha & Hk) (Hf & Hcv & Hau & Hkn).
  destruct g as [t tf icv iau ikn ifl rdy].
  cbn [input_flags input_cv input_audio input_knobs] in *.
  explode_list icv Hc. explode_list iau Ha. explode_list ikn Hk.
  repeat match goal with
         | H : Forall _ (_ :: _) |- _ => apply Forall_cons_iff in H; destruct H
         | H : Forall _ [] |- _ => clear H
         end.
  unfold snapshot_typed, snapshot_of. cbn. auto 10.
Qed.

(** X6.  Whatever the firmware writes to the host in one iteration is
    either nothing or one whole packet: 16 bytes, each in 0..255, the
    first 0xC1, sent only when a report was pending, and carrying exactly
    the eight values the globals held, so that the little-endian
    extraction gives them back. *)
Theorem sent_packet_well_formed probe s r :
  reachable probe s ->
  let out := snd (snd (usb_loop_body r (core0 s))) in
  out = [] \/
  (inputs_ready (glob (core0 s)) = true /\
   length out = 16%nat /\
   out !!! 0%nat = 0xC1 /\
   Forall is_uint8 out /\
   decode_input_packet out = snapshot_of (glob (core0 s))).
Proof.
  intros Hr out.
  pose proof (reachable_shared_inv probe s Hr) as [Hwf _].
  pose proof (reachable_inputs_typed probe s Hr) as Hty.
  pose proof (inputs_typed_snapshot _ Hwf Hty) as Hsnap.
  destruct (continues (snd (usb_rx r (core0 s)))) eqn:Hc.
  - left. subst out. now apply usb_loop_body_continue.
  - pose proof (usb_loop_body_falls_through r (core0 s) Hc) as [_ Hout].
    fold out in Hout. rewrite Hout.
    destruct (inputs_ready (glob (core0 s))); [right|now left].
    split; [reflexivity|]. split; [reflexivity|]. split; [reflexivity|].
    split; [apply encode_bytes; apply Hsnap|].
    now apply decode_encode_typed.
Qed.

Lemma sent_packet_well_formed_witness :
  let s := fst (sys_run false
                  (repeat (Sample (mkHw (-2048) 2047 (-1) 300 4095 0 17 true false 2
                                        (fun _ => true))) 48)
                  (mkSystem (loop_start (repeat 0 10) shared_init) 0)) in
  let out := snd (snd (usb_loop_body Timeout (core0 s))) in
  decode_input_packet out = mkSnapshot 9 (-2048) 2047 (-1) 300 4095 0 17.
Proof.
  intros s out.
  destruct (sent_packet_well_formed false s Timeout) as [H|(_ & _ & _ & _ & H)].
  - apply reachable_run. apply reach_start. reflexivity.
  - vm_compute in H. discriminate H.
  - etransitivity; [exact H|]. vm_compute. reflexivity.
Defined.

(** ** No report is sent twice *)

Lemma usb_loop_body_ready r s :
  let '(s', (_, out)) := usb_loop_body r s in
  (out = [] /\ inputs_ready (glob s') = inputs_ready (glob s)) \/
  (out <> [] /\ inputs_ready (glob s) = true /\ inputs_ready (glob s') = false).
Proof.
  destruct (continues (snd (usb_rx r s))) eqn:Hc.
  - pose proof (usb_loop_body_continue r s Hc) as [H1 H2].
    destruct (usb_loop_body r s) as [s' [e out]]. cbn [fst snd] in *. auto.
  - pose proof (usb_loop_body_falls_through r s Hc) as [Hb Hout].
    pose proof (usb_rx_inputs r s) as (Hr & _ & _).
    rewrite Hb in *. cbn [fst snd] in *.
    unfold usb_tx in *. rewrite take_unfold in *. rewrite Hr in *.
    destruct (inputs_ready (glob s)) eqn:Hrdy; cbn [fst snd glob] in *.
    + right. rewrite Hout. split; [discriminate|]. auto.
    + left. rewrite Hr. auto.
Qed.

Lemma ProcessMainSample_ready probe hw c g :
  let '((_, g'), (_, pub)) := ProcessMainSample probe hw c g in
  inputs_ready g' = (pub || inputs_ready g).
Proof.
  unfold ProcessMainSample. cbn [readTargets].
  destruct (INPUT_REPORT_INTERVAL <=? c + 1); reflexivity.
Qed.

Lemma sys_run_packets probe ins : forall s,
  (length (packets_sent (snd (sys_run probe ins s))) <=
   reports_published (snd (sys_run probe ins s))
   + (if inputs_ready (glob (core0 s)) then 1 else 0))%nat.
Proof.
  induction ins as [|i ins IH]; intros s; [cbn; lia|].
  cbn [sys_run]. destruct i as [hw | r]; unfold sys_step.
  - pose proof (ProcessMainSample_ready probe hw (counter s) (glob (core0 s))) as Hr.
    destruct (ProcessMainSample probe hw (counter s) (glob (core0 s)))
      as [[c g] [o pub]].
    specialize (IH (mkSystem (mkLoop (pktBuf (core0 s)) (pktPos (core0 s)) g) c)).
    destruct (sys_run probe ins _) as [s2 os].
    cbn [fst snd packets_sent reports_published glob core0] in *.
    rewrite Hr in IH. destruct pub; cbn [orb] in IH.
    + destruct (inputs_ready (glob (core0 s))); lia.
    + exact IH.
  - pose proof (usb_loop_body_ready r (core0 s)) as Hr.
    destruct (usb_loop_body r (core0 s)) as [l [e out]].
    specialize (IH (mkSystem l (counter s))).
    destruct (sys_run probe ins _) as [s2 os].
    cbn [fst snd packets_sent reports_published glob core0] in *.
    destruct Hr as [[-> Hr]|(Hne & Hr1 & Hr2)].
    + rewrite Hr in IH. exact IH.
    + rewrite Hr1. rewrite Hr2 in IH.
      destruct out; [contradiction|]. cbn [length]. lia.
Qed.

(** X7.  No report is sent twice: over any sequence of audio samples and
    loop iterations, from any state, the number of packets written to the
    host is at most the number of samples that published a report, plus
    one if a report was already pending at the start. *)
Theorem packets_bounded_by_reports probe ins s :
  (length (packets_sent (snd (sys_run probe ins s))) <=
   reports_published (snd (sys_run probe ins s))
   + (if inputs_ready (glob (core0 s)) then 1 else 0))%nat.
Proof. apply sys_run_packets. Qed.

(** ** The two directions of [usb_loop] *)

Lemma usb_loop_body_unfold r s :
  usb_loop_body r s =
    (if continues (snd (usb_rx r s)) then (fst (usb_rx r s), (snd (usb_rx r s), []))
     else (fst (usb_tx (fst (usb_rx r s))),
           (snd (usb_rx r s), snd (usb_tx (fst (usb_rx r s)))))).
Proof.
  unfold usb_loop_body. destruct (usb_rx r s) as [s1 e]. cbn [fst snd].
  destruct (continues e); [reflexivity|].
  now destruct (usb_tx s1).
Qed.

(** An iteration that leaves through a [continue] has touched the packet
    buffer at most: the globals are as before. *)
Lemma usb_loop_body_held r s :
  continues (snd (usb_rx r s)) = true ->
  snd (snd (usb_loop_body r s)) = [] /\ glob (fst (usb_loop_body r s)) = glob s.
Proof.
  intros Hc. rewrite usb_loop_body_unfold, Hc. cbn [fst snd].
  split; [reflexivity|]. rewrite usb_rx_glob.
  destruct (snd (usb_rx r s)); try reflexivity. discriminate Hc.
Qed.

Lemma sent_app os1 os2 : sent (os1 ++ os2) = sent os1 ++ sent os2.
Proof. unfold sent. now rewrite map_app, concat_app. Qed.

Lemma usb_loop_held rs : forall s,
  Forall (fun o => continues (fst o) = true) (snd (usb_loop rs s)) ->
  glob (fst (usb_loop rs s)) = glob s /\ sent (snd (usb_loop rs s)) = [].
Proof.
  induction rs as [|r rs IH]; intros s Hall; [split; reflexivity|].
  cbn [usb_loop] in *.
  pose proof (usb_loop_body_unfold r s) as Hb.
  pose proof (usb_loop_body_held r s) as Hh.
  destruct (usb_loop_body r s) as [s1 o].
  specialize (IH s1). destruct (usb_loop rs s1) as [s2 os].
  cbn [fst snd] in *.
  apply Forall_cons_iff in Hall as [Ho Hos].
  assert (fst o = snd (usb_rx r s)) as He.
  { destruct (continues (snd (usb_rx r s))); inversion Hb; reflexivity. }
  rewrite He in Ho. destruct (Hh Ho) as [Hout Hg].
  destruct (IH Hos) as [IHg IHs].
  split; [congruence|].
  unfold sent in *. cbn [map concat]. now rewrite Hout, IHs.
Qed.

(** The reader half reads and writes the packet buffer and the targets,
    never the input fields: with other input fields in the globals it
    goes the same way and leaves the same targets. *)
Lemma usb_loop_body_inbound_only r s cv au kn fl rdy :
  let s' := mkLoop (pktBuf s) (pktPos s)
              (mkShared (target (glob s)) (target_flags (glob s))
                        cv au kn fl rdy) in
  fst (snd (usb_loop_body r s')) = fst (snd (usb_loop_body r s)) /\
  pktBuf (fst (usb_loop_body r s')) = pktBuf (fst (usb_loop_body r s)) /\
  pktPos (fst (usb_loop_body r s')) = pktPos (fst (usb_loop_body r s)) /\
  readTargets (glob (fst (usb_loop_body r s'))) =
    readTargets (glob (fst (usb_loop_body r s))).
Proof.
  intros s'.
  pose proof (usb_rx_parser_only r s (glob s')) as Hp.
  pose proof (usb_rx_glob r s) as Hg. pose proof (usb_rx_glob r s') as Hg'.
  change (mkLoop (pktBuf s) (pktPos s) (glob s')) with s' in Hp.
  rewrite !usb_loop_body_unfold.
  destruct (usb_rx r s) as [s1 e1], (usb_rx r s') as [s2 e2].
  cbn [fst snd] in *. destruct Hp as (Hbuf & Hpos & <-).
  assert (readTargets (glob s2) = readTargets (glob s1)) as Ht.
  { rewrite Hg, Hg'. destruct e1; reflexivity. }
  destruct (continues e1); cbn [fst snd].
  - auto.
  - destruct (usb_tx_parser s1) as [-> ->], (usb_tx_parser s2) as [-> ->].
    rewrite !usb_tx_targets. auto.
Qed.

(** C7.  One iteration of [usb_loop] is the reader half followed, unless
    the reader left through a [continue], by the writer half run on the
    state the reader left; the targets a completed packet has set are
    those the iteration ends with.  Sending does not wait for a command:
    whenever the writer half is reached, and it always is when the read
    times out, it sends the pending report, whatever the reader did, and
    nothing when none is pending.  Receiving does not wait for a report:
    with any other input fields and any other [inputs_ready] the reader
    goes the same way, keeps the same buffer and leaves the same
    targets.  An iteration that leaves through a [continue] sends nothing
    and leaves the globals as they are, so that after any number of them
    the first iteration that reaches the writer half sends the report
    that was pending. *)
Theorem inbound_before_outbound r s :
  let rx := usb_rx r s in
  let it := usb_loop_body r s in
  it = (if continues (snd rx) then (fst rx, (snd rx, []))
        else (fst (usb_tx (fst rx)), (snd rx, snd (usb_tx (fst rx))))) /\
  readTargets (glob (fst it)) = readTargets (glob (fst rx)) /\
  (continues (snd rx) = false ->
     snd (snd it) =
       if inputs_ready (glob s) then encode (snapshot_of (glob s)) else []) /\
  snd (usb_loop_body Timeout s) =
    (RxNone, if inputs_ready (glob s) then encode (snapshot_of (glob s)) else []) /\
  (forall cv au kn fl rdy,
     let s' := mkLoop (pktBuf s) (pktPos s)
                 (mkShared (target (glob s)) (target_flags (glob s))
                           cv au kn fl rdy) in
     fst (snd (usb_loop_body r s')) = fst (snd it) /\
     pktBuf (fst (usb_loop_body r s')) = pktBuf (fst it) /\
     pktPos (fst (usb_loop_body r s')) = pktPos (fst it) /\
     readTargets (glob (fst (usb_loop_body r s'))) = readTargets (glob (fst it))) /\
  (continues (snd rx) = true -> snd (snd it) = [] /\ glob (fst it) = glob s) /\
  (forall rs r',
     Forall (fun o => continues (fst o) = true) (snd (usb_loop rs s)) ->
     continues (snd (usb_rx r' (fst (usb_loop rs s)))) = false ->
     sent (snd (usb_loop (rs ++ [r']) s)) =
       if inputs_ready (glob s) then encode (snapshot_of (glob s)) else []).
Proof.
  intros rx it. subst rx it.
  split; [apply usb_loop_body_unfold|].
  split; [|split; [|split; [|split; [|split]]]].
  - rewrite usb_loop_body_unfold.
    destruct (continues (snd (usb_rx r s))); cbn [fst]; [reflexivity|].
    apply usb_tx_targets.
  - intros Hc. now apply usb_loop_body_falls_through.
  - destruct (usb_loop_body_falls_through Timeout s) as [Hb Hout];
      [now rewrite rx_timeout|].
    rewrite <- Hout, Hb, rx_timeout. reflexivity.
  - intros cv au kn fl rdy. apply usb_loop_body_inbound_only.
  - apply usb_loop_body_held.
  - intros rs r' Hall Hc.
    destruct (usb_loop_held rs s Hall) as [Hg Hs].
    rewrite usb_loop_app. cbn [snd]. rewrite sent_app, Hs. cbn [app].
    destruct (usb_loop_body_falls_through r' _ Hc) as [_ Hout].
    cbn [usb_loop].
    destruct (usb_loop_body r' (fst (usb_loop rs s))) as [s1 [e out]].
    cbn [fst snd] in *. unfold sent. cbn [map concat snd].
    rewrite app_nil_r, Hout, Hg. reflexivity.
Qed.

Lemma inbound_before_outbound_witness :
  let p := mkSnapshot 0x06 100 (-50) 0 0 4095 0 2048 in
  let s := loop_start (repeat 0 10) (publishSnapshot p shared_init) in
  events (snd (usb_loop (map Char [0x11; 0x12; 0x13]) s)) = [RxSkip; RxSkip; RxSkip] /\
  sent (snd (usb_loop (map Char [0x11; 0x12; 0x13]) s)) = [] /\
  sent (snd (usb_loop (map Char [0x11; 0x12; 0x13] ++ [Char 0xC0]) s)) =
    [0xC1; 0x06; 0x64; 0x00; 0xCE; 0xFF; 0x00; 0x00;
     0x00; 0x00; 0xFF; 0x0F; 0x00; 0x00; 0x00; 0x08].
Proof.
  intros p s.
  split; [vm_compute; reflexivity|]. split; [vm_compute; reflexivity|].
  destruct (inbound_before_outbound Timeout s) as (_ & _ & _ & _ & _ & _ & H).
  etransitivity.
  - apply (H (map Char [0x11; 0x12; 0x13]) (Char 0xC0)).
    + vm_compute. repeat constructor.
    + vm_compute. reflexivity.
  - vm_compute. reflexivity.
Defined.

(** ** From a command packet to the output jacks *)

Lemma pulse_bits f :
  is_uint8 f ->
  negb (Z.land f 0x01 =? 0) = Z.testbit f 0 /\
  negb (Z.land f 0x02 =? 0) = Z.testbit f 1.
Proof.
  intros Hf.
  assert (forallb (fun n => let f := Z.of_nat n in
                     Bool.eqb (negb (Z.land f 0x01 =? 0)) (Z.testbit f 0) &&
                     Bool.eqb (negb (Z.land f 0x02 =? 0)) (Z.testbit f 1))
                  (seq 0 256) = true) as Hall by (vm_compute; reflexivity).
  rewrite forallb_forall in Hall.
  specialize (Hall (Z.to_nat f)).
  unfold is_uint8 in Hf.
  rewrite Z2Nat.id in Hall by lia.
  assert (In (Z.to_nat f) (seq 0 256)) as Hin by (apply in_seq; lia).
  specialize (Hall Hin). apply andb_prop in Hall as [H1 H2].
  apply Bool.eqb_prop in H1, H2. auto.
Qed.

(** X8.  A command packet reaches the jacks unchanged: once a packet
    with a payload free of 0xC0 has been read, in whatever state the
    reader was, the next audio sample drives the two audio outputs and
    the two CV outputs with the four little-endian 16-bit values of the
    packet, and the two pulse outputs with bits 0 and 1 of its flags
    byte. *)
Theorem command_reaches_outputs probe hw c frame s :
  parser_inv s -> shared_wf (glob s) ->
  Forall is_uint8 frame -> is_packet frame ->
  let g := glob (fst (usb_loop (map Char frame) s)) in
  let out := fst (snd (ProcessMainSample probe hw c g)) in
  AudioOut1 out = le_int16 (frame !!! 2%nat) (frame !!! 3%nat) /\
  AudioOut2 out = le_int16 (frame !!! 4%nat) (frame !!! 5%nat) /\
  CVOut1 out = le_int16 (frame !!! 6%nat) (frame !!! 7%nat) /\
  CVOut2 out = le_int16 (frame !!! 8%nat) (frame !!! 9%nat) /\
  PulseOut1 out = Z.testbit (frame !!! 1%nat) 0 /\
  PulseOut2 out = Z.testbit (frame !!! 1%nat) 1.
Proof.
  intros Hinv Hwf Hbytes Hpkt g out.
  pose proof (usb_loop_clean_packet frame s Hinv Hwf Hbytes Hpkt) as (_ & Ht & _).
  cbv zeta in Ht. fold g in Ht.
  unfold readTargets, decode_frame in Ht. injection Ht as Hf Htg.
  assert (is_uint8 (frame !!! 1%nat)) as Hf1.
  { destruct Hpkt as (Hlen & _). rewrite Forall_lookup in Hbytes.
    apply (Hbytes 1%nat). apply list_lookup_lookup_total_lt. lia. }
  destruct (pulse_bits _ Hf1) as [Hp1 Hp2].
  subst out. unfold ProcessMainSample. cbn [readTargets].
  destruct (INPUT_REPORT_INTERVAL <=? c + 1);
    cbn [fst snd AudioOut1 AudioOut2 CVOut1 CVOut2 PulseOut1 PulseOut2];
    rewrite Htg, Hf; cbn [lookup_total list_lookup_total]; auto 10.
Qed.

Lemma command_reaches_outputs_witness :
  let s := fst (usb_loop (map Char [0xC0; 1; 2; 3])
                         (loop_start (repeat 0 10) shared_init)) in
  let frame := [0xC0; 0x02; 0x00; 0x08; 0xFF; 0xFF; 0x34; 0x12; 0x00; 0xF8] in
  let hw := mkHw 0 0 0 0 0 0 0 false false 0 (fun _ => false) in
  let out := fst (snd (ProcessMainSample false hw 0
                         (glob (fst (usb_loop (map Char frame) s))))) in
  (AudioOut1 out, AudioOut2 out, CVOut1 out, CVOut2 out, PulseOut1 out, PulseOut2 out)
    = (2048, -1, 4660, -2048, false, true).
Proof.
  intros s frame hw out.
  destruct (command_reaches_outputs false hw 0 frame s)
    as (H1 & H2 & H3 & H4 & H5 & H6).
  - apply usb_loop_parser_inv. split; [reflexivity|]. cbn. split; lia.
  - unfold shared_wf. cbn. auto.
  - repeat (constructor; [unfold is_uint8; lia|]); constructor.
  - split; [reflexivity|]. split; [reflexivity|].
    repeat (constructor; [unfold SYNC_HOST_TO_DEVICE; lia|]); constructor.
  - fold out in H1, H2, H3, H4, H5, H6.
    rewrite H1, H2, H3, H4, H5, H6. reflexivity.
Defined.

(** ** From the input jacks to the host *)

Lemma sample_flags_bits probe hw :
  0 <= SwitchVal hw <= 2 ->
  let f := to_uint8 (flags (sample_inputs probe hw)) in
  Z.testbit f 0 = jack_read probe hw Pulse1 && PulseIn1 hw /\
  Z.testbit f 1 = jack_read probe hw Pulse2 && PulseIn2 hw /\
  Z.shiftr f 2 = SwitchVal hw /\
  valid_flags f.
Proof.
  intros Hsw. unfold sample_inputs, jack_read, valid_flags. cbn [flags].
  assert (SwitchVal hw = 0 \/ SwitchVal hw = 1 \/ SwitchVal hw = 2)
    as [->|[->| ->]] by lia;
    destruct probe, (Connected hw Pulse1), (Connected hw Pulse2),
             (PulseIn1 hw), (PulseIn2 hw);
    vm_compute; intuition congruence.
Qed.

Lemma as_stored_sample probe hw :
  readings_typed hw ->
  as_stored (sample_inputs probe hw) =
    mkSnapshot (to_uint8 (flags (sample_inputs probe hw)))
               (if jack_read probe hw CV1 then CVIn1 hw else 0)
               (if jack_read probe hw CV2 then CVIn2 hw else 0)
               (if jack_read probe hw Audio1 then AudioIn1 hw else 0)
               (if jack_read probe hw Audio2 then AudioIn2 hw else 0)
               (KnobMain hw) (KnobX hw) (KnobY hw).
Proof.
  intros (H1 & H2 & H3 & H4 & H5 & H6 & H7 & _).
  unfold valid_knob, is_int16 in *.
  unfold as_stored, sample_inputs, jack_read.
  cbn [flags cv0 cv1 audio0 audio1 knob0 knob1 knob2].
  rewrite !(to_int16_id (KnobMain hw)), !(to_int16_id (KnobX hw)),
          !(to_int16_id (KnobY hw)) by lia.
  f_equal;
    (destruct probe; [destruct (Connected hw _)|]; apply to_int16_id; lia).
Qed.

(** X9.  An input report reaches the host unchanged: when an audio
    sample publishes and the next loop iteration times out on its read,
    the 16 bytes written decode to the readings of that sample: the two
    CV and two audio values (0 for a jack the second firmware copy finds
    unplugged), the three knob values, the two pulse inputs in flag bits
    0 and 1 and the switch position in bits 2-3. *)
Theorem readings_reach_host probe hw s :
  shared_wf (glob (core0 s)) ->
  readings_typed hw ->
  INPUT_REPORT_INTERVAL <= counter s + 1 ->
  exists o out,
    snd (sys_run probe [Sample hw; Poll Timeout] s)
      = [Driven o true; Polled RxNone out] /\
    let p := decode_input_packet out in
    cv0 p = (if jack_read probe hw CV1 then CVIn1 hw else 0) /\
    cv1 p = (if jack_read probe hw CV2 then CVIn2 hw else 0) /\
    audio0 p = (if jack_read probe hw Audio1 then AudioIn1 hw else 0) /\
    audio1 p = (if jack_read probe hw Audio2 then AudioIn2 hw else 0) /\
    knob0 p = KnobMain hw /\ knob1 p = KnobX hw /\ knob2 p = KnobY hw /\
    Z.testbit (flags p) 0 = jack_read probe hw Pulse1 && PulseIn1 hw /\
    Z.testbit (flags p) 1 = jack_read probe hw Pulse2 && PulseIn2 hw /\
    Z.shiftr (flags p) 2 = SwitchVal hw.
Proof.
  intros Hwf Hhw Hc.
  pose proof Hhw as (_ & _ & _ & _ & _ & _ & _ & Hsw).
  cbn [sys_run sys_step]. unfold ProcessMainSample. cbn [readTargets].
  replace (INPUT_REPORT_INTERVAL <=? counter s + 1) with true
    by (symmetry; now apply Z.leb_le).
  cbn [core0 counter glob pktBuf pktPos].
  unfold usb_loop_body. rewrite rx_timeout. cbn [continues].
  unfold usb_tx. cbn [glob]. rewrite take_unfold.
  change (inputs_ready (publishSnapshot (sample_inputs probe hw) (glob (core0 s))))
    with true.
  cbv iota. rewrite snapshot_of_publish by exact Hwf.
  do 2 eexists. split; [reflexivity|].
  assert (snapshot_typed (as_stored (sample_inputs probe hw))) as Hty.
  { unfold snapshot_typed, as_stored, is_uint8, is_int16.
    cbn [flags cv0 cv1 audio0 audio1 knob0 knob1 knob2].
    split; [apply to_uint8_range|]. repeat split; apply to_int16_range. }
  cbv zeta. rewrite (decode_encode_typed _ Hty).
  destruct (sample_flags_bits probe hw Hsw) as (Hb0 & Hb1 & Hb2 & _).
  cbv zeta in Hb0, Hb1, Hb2.
  rewrite (as_stored_sample probe hw Hhw).
  cbn [flags cv0 cv1 audio0 audio1 knob0 knob1 knob2].
  repeat (split; [first [reflexivity | assumption]|]). exact Hb2.
Qed.

Lemma readings_reach_host_witness :
  let hw := mkHw (-2048) 2047 (-1) 300 4095 0 17 true false 2 (fun _ => true) in
  let s := mkSystem (loop_start (repeat 0 10) shared_init) 47 in
  exists o out,
    snd (sys_run true [Sample hw; Poll Timeout] s)
      = [Driven o true; Polled RxNone out] /\
    cv0 (decode_input_packet out) = -2048 /\
    knob0 (decode_input_packet out) = 4095 /\
    Z.shiftr (flags (decode_input_packet out)) 2 = 2.
Proof.
  intros hw s.
  destruct (readings_reach_host true hw s)
    as (o & out & Hrun & Hcv0 & _ & _ & _ & Hk0 & _ & _ & _ & _ & Hsw).
  - unfold shared_wf. cbn. auto.
  - unfold readings_typed, is_int16, valid_knob. cbn. lia.
  - unfold INPUT_REPORT_INTERVAL. cbn. lia.
  - exists o, out. split; [exact Hrun|].
    split; [exact Hcv0|]. split; [exact Hk0|exact Hsw].
Defined.

(** ** The report counter in any reachable state *)

Lemma reachable_counter probe s :
  reachable probe s -> 0 <= counter s < INPUT_REPORT_INTERVAL.
Proof.
  unfold INPUT_REPORT_INTERVAL.
  induction 1 as [buf Hlen | s i Hr IH]; [cbn; lia|].
  destruct i as [hw | r]; unfold sys_step.
  - unfold ProcessMainSample, INPUT_REPORT_INTERVAL. cbn [readTargets].
    destruct (Z.leb_spec 48 (counter s + 1)); cbn [fst counter]; lia.
  - destruct (usb_loop_body r (core0 s)) as [l [e out]]. exact IH.
Qed.

Lemma publish_ticks_phase probe hws : forall n cn g,
  (cn < 48)%nat ->
  publish_ticks n (snd (sampler_run probe hws (Z.of_nat cn) g)) =
    List.filter (fun t => ((t - n + cn) mod 48 =? 0)%nat) (seq (S n) (length hws)).
Proof.
  induction hws as [|hw hws IH]; intros n cn g Hcn; [reflexivity|].
  cbn [sampler_run length seq List.filter].
  unfold ProcessMainSample, readTargets, INPUT_REPORT_INTERVAL.
  replace (S n - n + cn)%nat with (S cn) by lia.
  destruct (Nat.eq_dec cn 47%nat) as [E|E].
  - replace (48 <=? Z.of_nat cn + 1) with true by (symmetry; apply Z.leb_le; lia).
    specialize (IH (S n) 0%nat (publishSnapshot (sample_inputs probe hw) g)
                   ltac:(lia)).
    change (Z.of_nat 0) with 0 in IH.
    destruct (sampler_run probe hws 0 _) as [st os].
    cbn [snd publish_ticks] in *. subst cn.
    change ((48 mod 48 =? 0)%nat) with true. cbv iota.
    f_equal. rewrite IH. apply List.filter_ext_in.
    intros t Ht. apply in_seq in Ht.
    replace (t - n + 47)%nat with ((t - S n + 0) + 1 * 48)%nat by lia.
    now rewrite Nat.Div0.mod_add.
  - replace (48 <=? Z.of_nat cn + 1) with false by (symmetry; apply Z.leb_gt; lia).
    specialize (IH (S n) (S cn) g ltac:(lia)).
    replace (Z.of_nat (S cn)) with (Z.of_nat cn + 1) in IH by lia.
    destruct (sampler_run probe hws (Z.of_nat cn + 1) g) as [st os].
    cbn [snd publish_ticks] in *.
    rewrite (Nat.mod_small (S cn) 48) by lia.
    change ((S cn =? 0)%nat) with false. cbv iota.
    rewrite IH. apply List.filter_ext_in.
    intros t Ht. apply in_seq in Ht.
    replace (t - n + cn)%nat with (t - S n + S cn)%nat by lia. reflexivity.
Qed.

Lemma one_multiple_in_48 cn :
  (cn < 48)%nat ->
  length (List.filter (fun t => ((t - 0 + cn) mod 48 =? 0)%nat) (seq 1 48)) = 1%nat.
Proof.
  intros Hcn.
  assert (forallb (fun cn =>
            (length (List.filter (fun t => ((t - 0 + cn) mod 48 =? 0)%nat)
                                 (seq 1 48)) =? 1)%nat)
                  (seq 0 48) = true) as Hall by (vm_compute; reflexivity).
  rewrite forallb_forall in Hall.
  apply Nat.eqb_eq, Hall, in_seq. lia.
Qed.

(** Any 48 consecutive samples, from any phase of the counter: one of
    them makes the stores, on globals no sample before it has touched,
    and no sample after it touches them again. *)
Lemma sampler_run_window probe hws cn g :
  (cn < 48)%nat ->
  length hws = 48%nat ->
  exists hw,
    hws !! (47 - cn)%nat = Some hw /\
    fst (sampler_run probe hws (Z.of_nat cn) g) =
      (Z.of_nat cn, publishSnapshot (sample_inputs probe hw) g).
Proof.
  intros Hcn Hlen.
  assert (47 - cn < length hws)%nat as Hlt by lia.
  destruct (lookup_lt_is_Some_2 hws (47 - cn)%nat Hlt) as [hw Hhw].
  exists hw. split; [exact Hhw|].
  pose proof (sampler_run_tick probe hws cn g (47 - cn) hw Hcn Hhw) as Ht.
  replace (cn + S (47 - cn))%nat with 48%nat in Ht by lia.
  change ((48 mod 48 =? 0)%nat) with true in Ht. cbv iota in Ht.
  rewrite (sampler_run_quiet probe (take (47 - cn) hws)) in Ht
    by (rewrite length_take; unfold INPUT_REPORT_INTERVAL; lia).
  cbn [fst snd] in Ht.
  rewrite <- (take_drop (S (47 - cn)) hws) at 1.
  rewrite sampler_run_app, Ht. cbn [fst snd].
  rewrite sampler_run_quiet
    by (rewrite length_drop; unfold INPUT_REPORT_INTERVAL; lia).
  rewrite length_drop. f_equal. lia.
Qed.

(** X10.  In every reachable state [reportCounter] lies in 0..47, so the
    [int] never overflows.  From such a state the input block runs at
    exactly the following samples k for which [reportCounter + k] is a
    multiple of 48; any 48 consecutive samples therefore publish exactly
    one report.  The runs are the stores themselves: the globals after
    sample k + 1 are the stores of lines 126-135, with the readings of
    that sample, applied to the globals after sample k when
    [reportCounter + k + 1] is a multiple of 48, and the globals after
    sample k otherwise; and 48 consecutive samples leave the counter
    where it was and the globals with exactly one report stored, that of
    sample number 48 - [reportCounter]. *)
Theorem report_cadence probe s hws :
  reachable probe s ->
  let ticks :=
    publish_ticks 0 (snd (sampler_run probe hws (counter s) (glob (core0 s)))) in
  let cn := Z.to_nat (counter s) in
  let after k :=
    fst (sampler_run probe (take k hws) (counter s) (glob (core0 s))) in
  0 <= counter s <= 47 /\
  ticks = List.filter
            (fun k => ((k + Z.to_nat (counter s)) mod 48 =? 0)%nat)
            (seq 1 (length hws)) /\
  (length hws = 48%nat -> length ticks = 1%nat) /\
  (forall k hw, hws !! k = Some hw ->
     after (S k) =
       if ((cn + S k) mod 48 =? 0)%nat
       then (0, publishSnapshot (sample_inputs probe hw) (snd (after k)))
       else (Z.of_nat ((cn + S k) mod 48), snd (after k))) /\
  (length hws = 48%nat ->
     exists hw,
       hws !! (47 - cn)%nat = Some hw /\
       fst (sampler_run probe hws (counter s) (glob (core0 s))) =
         (counter s, publishSnapshot (sample_inputs probe hw) (glob (core0 s))) /\
       snapshot_of (snd (fst (sampler_run probe hws (counter s) (glob (core0 s)))))
         = as_stored (sample_inputs probe hw)).
Proof.
  intros Hr ticks cn after.
  pose proof (reachable_counter probe s Hr) as Hc. unfold INPUT_REPORT_INTERVAL in Hc.
  assert (counter s = Z.of_nat cn) as Hcn by (unfold cn; lia).
  assert (cn < 48)%nat as Hlt by (unfold cn; lia).
  assert (ticks = List.filter
            (fun t => ((t - 0 + Z.to_nat (counter s)) mod 48 =? 0)%nat)
            (seq 1 (length hws))) as Hticks.
  { subst ticks. rewrite <- (Z2Nat.id (counter s)) at 1 by lia.
    apply publish_ticks_phase. lia. }
  split; [lia|]. split; [|split; [|split]].
  - rewrite Hticks. apply List.filter_ext. intros k.
    now rewrite Nat.sub_0_r.
  - intros Hlen. rewrite Hticks, Hlen. apply one_multiple_in_48. lia.
  - intros k hw Hk. subst after. cbv beta. rewrite Hcn.
    now apply sampler_run_tick.
  - intros Hlen.
    destruct (sampler_run_window probe hws cn (glob (core0 s)) Hlt Hlen)
      as (hw & Hhw & Hrun).
    exists hw. rewrite Hcn, Hrun. cbn [snd].
    split; [exact Hhw|]. split; [reflexivity|].
    apply snapshot_of_publish. apply (reachable_shared_inv probe s Hr).
Qed.

Lemma report_cadence_witness :
  let hw := mkHw 0 0 0 0 0 0 0 false false 1 (fun _ => true) in
  let s := fst (sys_run false (repeat (Sample hw) 50)
                  (mkSystem (loop_start (repeat 0 10) shared_init) 0)) in
  counter s = 2 /\
  publish_ticks 0
    (snd (sampler_run false (repeat hw 100) (counter s) (glob (core0 s))))
  = [46; 94]%nat.
Proof.
  intros hw s. split; [vm_compute; reflexivity|].
  destruct (report_cadence false s (repeat hw 100)) as (_ & H & _).
  - apply reachable_run. apply reach_start. reflexivity.
  - etransitivity; [exact H|]. vm_compute. reflexivity.
Defined.

(** * The card base class: hold-to-reboot and the startup pattern *)

Section ExtendedCardFacts.

Context {St Out Inp : Type}.
Variable pat : list (list Z).

(** One sample with the switch down. *)
Lemma ProcessSample_down (main : St -> St * Out) c s :
  0 <= switchDownCount c ->
  ProcessSample pat main true c s =
    ((set_switchDownCount (switchDownCount c + 1) (with_pattern pat c), s),
     hold_output (switchDownCount c + 1)).
Proof.
  intros Hc. unfold ProcessSample, HandleBootSequence, hold_output.
  fold (with_pattern pat c).
  assert (switchDownCount (with_pattern pat c) = switchDownCount c) as Hn
    by (unfold with_pattern; destruct (pattern c); reflexivity).
  rewrite Hn.
  replace (0 <? switchDownCount c + 1) with true by (symmetry; apply Z.ltb_lt; lia).
  unfold set_switchDownCount.
  destruct (96000 <=? switchDownCount c + 1); [reflexivity|].
  cbn [switchDownCount].
  replace (0 <? switchDownCount c + 1) with true by (symmetry; apply Z.ltb_lt; lia).
  reflexivity.
Qed.

Lemma card_run_held (main : Inp -> St -> St * Out) xs : forall c s,
  0 <= switchDownCount c ->
  card_run pat main (map (pair true) xs) c s =
    (match xs with
     | [] => c
     | _ => set_switchDownCount (switchDownCount c + Z.of_nat (length xs))
                                (with_pattern pat c)
     end, s,
     map (fun k => hold_output (switchDownCount c + Z.of_nat k))
         (seq 1 (length xs))).
Proof.
  induction xs as [|x xs IH]; intros c s Hc; [reflexivity|].
  cbn [map card_run]. rewrite ProcessSample_down by exact Hc.
  rewrite IH
    by (unfold set_switchDownCount; cbn [switchDownCount]; lia).
  assert (map (fun k => hold_output (O := Out)
                 (switchDownCount
                    (set_switchDownCount (switchDownCount c + 1) (with_pattern pat c))
                  + Z.of_nat k)) (seq 1 (length xs))
          = map (fun k => hold_output (switchDownCount c + Z.of_nat k))
                (seq 2 (length xs))) as ->.
  { rewrite <- (seq_shift _ 1), map_map. apply map_ext. intros k.
    unfold set_switchDownCount. cbn [switchDownCount]. f_equal. lia. }
  cbn [length seq map]. replace (Z.of_nat 1) with 1 by reflexivity.
  f_equal. f_equal.
  destruct c as [n p pos sc ini]. unfold set_switchDownCount, with_pattern.
  destruct xs as [|x' xs]; destruct p;
    cbn [switchDownCount pattern position sample_counter
         initialization_complete length]; f_equal; lia.
Qed.

(** X11.  Holding the switch down reboots the card at exactly the
    96000th sample in a row, no earlier: during a run of samples with
    the switch down that starts with the hold counter at zero, the k-th
    sample lights LED 4, LED 2 once k exceeds 32000 and LED 0 once k
    exceeds 64000, and calls [Abort] if and only if k has reached 96000.
    Meanwhile the derived class is never run (its state is untouched)
    and the startup pattern does not advance. *)
Theorem hold_to_reboot (main : Inp -> St -> St * Out) xs c s :
  switchDownCount c = 0 ->
  let run := card_run pat main (map (pair true) xs) c s in
  snd (fst run) = s /\
  position (fst (fst run)) = position c /\
  sample_counter (fst (fst run)) = sample_counter c /\
  initialization_complete (fst (fst run)) = initialization_complete c /\
  switchDownCount (fst (fst run)) = Z.of_nat (length xs) /\
  snd run = map (fun k => hold_output (Z.of_nat k)) (seq 1 (length xs)) /\
  forall k leds,
    snd run !! k = Some (leds, BootAbort) <->
    (k < length xs)%nat /\ 96000 <= Z.of_nat k + 1 /\
    leds = leds_off ++ [LedOn 4 true; LedOn 2 true; LedOn 0 true].
Proof.
  intros H0 run. subst run. rewrite card_run_held by lia. rewrite H0.
  cbn [fst snd].
  assert (forall A (f : ExtendedCard -> A),
            (forall n, f (set_switchDownCount n (with_pattern pat c)) = f c) ->
            f match xs with
              | [] => c
              | _ :: _ => set_switchDownCount (0 + Z.of_nat (length xs))
                                              (with_pattern pat c)
              end = f c) as Hf by (intros A f Hfc; destruct xs; auto).
  split; [reflexivity|].
  split; [apply (Hf _ position); intros n; unfold with_pattern;
          destruct (pattern c); reflexivity|].
  split; [apply (Hf _ sample_counter); intros n; unfold with_pattern;
          destruct (pattern c); reflexivity|].
  split; [apply (Hf _ initialization_complete); intros n; unfold with_pattern;
          destruct (pattern c); reflexivity|].
  split; [destruct xs; cbn [switchDownCount set_switchDownCount length]; lia|].
  split; [apply map_ext; intros k; f_equal; lia|].
  intros k leds. rewrite list_lookup_fmap.
  destruct (Nat.lt_ge_cases k (length xs)) as [Hk|Hk].
  - rewrite lookup_seq_lt by exact Hk. cbn [fmap option_fmap option_map].
    unfold hold_output.
    replace (0 + Z.of_nat (1 + k)) with (Z.of_nat k + 1) by lia.
    destruct (Z.leb_spec 96000 (Z.of_nat k + 1)) as [Hge|Hlt].
    + replace (32000 <? Z.of_nat k + 1) with true by (symmetry; apply Z.ltb_lt; lia).
      replace (64000 <? Z.of_nat k + 1) with true by (symmetry; apply Z.ltb_lt; lia).
      split.
      * intros H. injection H as <-. auto.
      * intros (_ & _ & ->). reflexivity.
    + split; [discriminate|]. intros (_ & Hge & _). lia.
  - rewrite lookup_seq_ge by exact Hk. cbn.
    split; [discriminate|]. intros (Hlt & _). lia.
Qed.

End ExtendedCardFacts.

Lemma hold_to_reboot_witness :
  let run := card_run kBridgePattern (bridge_main false)
               (map (pair true) (repeat (mkHw 0 0 0 0 0 0 0 false false 0 (fun _ => true)) 3))
               card_init (0, shared_init) in
  snd (fst run) = (0, shared_init) /\
  switchDownCount (fst (fst run)) = 3 /\
  snd run = [hold_output 1; hold_output 2; hold_output 3].
Proof.
  intros run.
  destruct (hold_to_reboot kBridgePattern (bridge_main false)
              (repeat (mkHw 0 0 0 0 0 0 0 false false 0 (fun _ => true)) 3)
              card_init (0, shared_init)) as (H1 & _ & _ & _ & H2 & H3 & _).
  - reflexivity.
  - split; [exact H1|]. split; [exact H2|exact H3].
Defined.

Section ExtendedCardRuns.

Context {St Out Inp : Type}.
Variable pat : list (list Z).
Variable main : Inp -> St -> St * Out.

(** What one sample does to the hold counter, and when it reboots or
    runs the derived class. *)
Lemma ProcessSample_boot (f : St -> St * Out) d c s :
  0 <= switchDownCount c ->
  let r := ProcessSample pat f d c s in
  switchDownCount (fst (fst r)) = (if d then switchDownCount c + 1 else 0) /\
  (snd (snd r) = BootAbort <-> d = true /\ 96000 <= switchDownCount c + 1) /\
  (forall o, snd (snd r) = MainRan o -> d = false).
Proof.
  intros Hc r. subst r. destruct d.
  - rewrite ProcessSample_down by exact Hc. unfold hold_output.
    cbn [fst snd switchDownCount set_switchDownCount].
    split; [reflexivity|].
    destruct (Z.leb_spec 96000 (switchDownCount c + 1)) as [Hge|Hlt].
    + split; [tauto|discriminate].
    + split; [|discriminate]. split; [discriminate|]. intros [_ H]. lia.
  - assert (forall A (x : A * (list led_cmd * outcome Out)),
              snd (snd x) <> BootAbort ->
              (snd (snd x) = BootAbort <-> false = true /\ 96000 <= switchDownCount c + 1))
      as Hno by (intros A x Hx; split; [contradiction|intros [H _]; discriminate H]).
    destruct c as [n p pos sc ini].
    unfold ProcessSample, HandleBootSequence, HandleStartupPattern.
    cbn [switchDownCount pattern position sample_counter initialization_complete].
    destruct p as [p|]; destruct ini;
      cbn [switchDownCount pattern position sample_counter initialization_complete
           negb fst snd];
      change (0 <? 0) with false; cbv iota;
      cbn [switchDownCount pattern position sample_counter initialization_complete
           negb fst snd].
    all: try (destruct (f s) as [s' o']).
    all: try (destruct (SAMPLES_PER_HALF_BEAT <=? sc + 1);
              [destruct (12 <=? pos + 1)|]).
    all: cbn [fst snd switchDownCount].
    all: (split; [reflexivity|]; split; [apply Hno; discriminate|]).
    all: first [discriminate | reflexivity | auto].
Qed.

Lemma card_run_cons d x rest c s :
  let r := ProcessSample pat (main x) d c s in
  card_run pat main ((d, x) :: rest) c s =
    (fst (card_run pat main rest (fst (fst r)) (snd (fst r))),
     snd r :: snd (card_run pat main rest (fst (fst r)) (snd (fst r)))).
Proof.
  cbn [card_run]. destruct (ProcessSample pat (main x) d c s) as [[c1 s1] o].
  cbn [fst snd]. now destruct (card_run pat main rest c1 s1).
Qed.

Lemma card_run_abort rest : forall (pre : list (bool * Inp)) c s (m : nat) k leds,
  switchDownCount c = Z.of_nat m ->
  (m <= length pre)%nat ->
  (forall j, (length pre - m <= j < length pre)%nat ->
             fst <$> pre !! j = Some true) ->
  snd (card_run pat main rest c s) !! k = Some (leds, BootAbort) ->
  (95999 <= Z.of_nat (length pre + k)) /\
  forall j, Z.of_nat (length pre + k) - 95999 <= Z.of_nat j <= Z.of_nat (length pre + k) ->
            fst <$> (pre ++ rest) !! j = Some true.
Proof.
  induction rest as [|[d x] rest IH]; intros pre c s m k leds Hm Hle Hpre Hk.
  - discriminate Hk.
  - rewrite card_run_cons in Hk. cbv zeta in Hk. cbn [snd] in Hk.
    pose proof (ProcessSample_boot (main x) d c s ltac:(lia)) as (Hcnt & Hab & _).
    cbv zeta in Hcnt, Hab.
    set (r := ProcessSample pat (main x) d c s) in *.
    assert (forall j, (length (pre ++ [(d, x)]) - (if d then Datatypes.S m else 0)
                         <= j < length (pre ++ [(d, x)]))%nat ->
                      fst <$> (pre ++ [(d, x)]) !! j = Some true) as Hpre'.
    { intros j Hj. rewrite length_app in Hj. cbn [length] in Hj.
      destruct (Nat.lt_ge_cases j (length pre)) as [Hlt|Hge].
      - rewrite lookup_app_l by exact Hlt. apply Hpre. destruct d; lia.
      - assert (j = length pre) as -> by lia.
        rewrite list_lookup_middle by reflexivity.
        destruct d; [reflexivity|lia]. }
    destruct k as [|k].
    + cbn [lookup list_lookup] in Hk. injection Hk as Hk.
      assert (snd (snd r) = BootAbort) as Hb by now rewrite Hk.
      apply Hab in Hb as [-> Hge].
      rewrite Nat.add_0_r. split; [lia|].
      intros j Hj. rewrite (cons_middle (true, x) pre rest), app_assoc.
      rewrite lookup_app_l by (rewrite length_app; cbn [length]; lia).
      apply Hpre'. rewrite length_app. cbn [length]. lia.
    + cbn [lookup list_lookup] in Hk.
      specialize (IH (pre ++ [(d, x)]) (fst (fst r)) (snd (fst r))
                     (if d then Datatypes.S m else 0)%nat k leds).
      rewrite length_app in IH. cbn [length] in IH.
      replace (length pre + 1 + k)%nat with (length pre + Datatypes.S k)%nat in IH by lia.
      rewrite (cons_middle (d, x) pre rest), app_assoc.
      apply IH.
      * rewrite Hcnt. destruct d; lia.
      * destruct d; lia.
      * intros j Hj. apply Hpre'. rewrite length_app. cbn [length]. exact Hj.
      * exact Hk.
Qed.

(** X12.  A reboot needs 96000 samples in a row with the switch down:
    if the sample at index k of a run calls [Abort], then the switch was
    down at that sample and at every earlier sample of the run among the
    95999 before it, and the hold counter at the start of the run
    accounts for whatever part of the 96000 the run itself does not
    cover.  From a fresh card (counter 0) the whole hold lies in the
    run; letting go of the switch starts the count over. *)
Theorem reboot_needs_full_hold ins c s k leds :
  0 <= switchDownCount c ->
  snd (card_run pat main ins c s) !! k = Some (leds, BootAbort) ->
  96000 <= switchDownCount c + Z.of_nat k + 1 /\
  forall j, (j <= k)%nat -> Z.of_nat k - 95999 <= Z.of_nat j ->
            fst <$> ins !! j = Some true.
Proof.
  intros Hc Hk.
  destruct ins as [|[d0 x0] ins']; [discriminate Hk|].
  set (ins := (d0, x0) :: ins') in *.
  set (m := Z.to_nat (switchDownCount c)).
  pose proof (card_run_abort ins (replicate m (true, x0)) c s m k leds) as H.
  rewrite length_replicate in H.
  destruct H as [Hge Hall].
  - subst m. lia.
  - lia.
  - intros j Hj. rewrite lookup_replicate_2 by lia. reflexivity.
  - exact Hk.
  - split; [subst m; lia|].
    intros j Hj Hlo.
    specialize (Hall (m + j)%nat ltac:(lia)).
    rewrite lookup_app_r in Hall by (rewrite length_replicate; lia).
    rewrite length_replicate in Hall.
    replace (m + j - m)%nat with j in Hall by lia. exact Hall.
Qed.

End ExtendedCardRuns.

Lemma reboot_needs_full_hold_witness :
  let ins := [(true, tt); (true, tt); (true, tt)] in
  let c := mkCard 95997 (Some kBridgePattern) 12 0 true in
  snd (card_run kBridgePattern (fun (_ : unit) (s : unit) => (s, tt)) ins c tt)
    !! 2%nat = Some (fst (hold_output (O := unit) 96000), BootAbort) /\
  forall j, (j <= 2)%nat -> fst <$> ins !! j = Some true.
Proof.
  intros ins c. split; [vm_compute; reflexivity|].
  destruct (reboot_needs_full_hold kBridgePattern
              (fun (_ : unit) (s : unit) => (s, tt)) ins c tt 2%nat
              (leds_off ++ [LedOn 4 true; LedOn 2 true; LedOn 0 true]))
    as [_ H].
  - cbn. lia.
  - vm_compute. reflexivity.
  - intros j Hj. apply H; [exact Hj|lia].
Defined.

Section StartupPattern.

Context {St Out Inp : Type}.
Variable pat : list (list Z).
Variable main : Inp -> St -> St * Out.

Lemma half_beat_next j :
  0 <= j ->
  (j mod 12000 + 1 < 12000 ->
     (j + 1) / 12000 = j / 12000 /\ (j + 1) mod 12000 = j mod 12000 + 1) /\
  (12000 <= j mod 12000 + 1 ->
     (j + 1) / 12000 = j / 12000 + 1 /\ (j + 1) mod 12000 = 0).
Proof.
  intros Hj.
  pose proof (Z.div_mod j 12000 ltac:(lia)) as H1.
  pose proof (Z.mod_pos_bound j 12000 ltac:(lia)) as H2.
  pose proof (Z.div_mod (j + 1) 12000 ltac:(lia)) as H3.
  pose proof (Z.mod_pos_bound (j + 1) 12000 ltac:(lia)) as H4.
  split; intros H; split; lia.
Qed.

Lemma pattern_at_card_after j : pattern_at pat j (card_after pat j).
Proof.
  unfold pattern_at, card_after.
  destruct (j <? 12 * SAMPLES_PER_HALF_BEAT); cbn; auto 10 with zarith.
Qed.

(** One sample with the switch not down, in closed form. *)
Lemma ProcessSample_unheld (f : St -> St * Out) c s j :
  pattern_at pat j c -> 0 <= j ->
  ProcessSample pat f false c s =
    if j + 1 <=? 144000 then ((card_after pat (j + 1), s), startup_step pat (j + 1))
    else ((card_after pat (j + 1), fst (f s)), ([], MainRan (snd (f s)))).
Proof.
  intros (Hc & Hp & Hpos & Hsc & Hini) Hj.
  destruct (half_beat_next j Hj) as [Hsame Hnext].
  pose proof (Z.div_mod j 12000 ltac:(lia)) as Hdm.
  pose proof (Z.mod_pos_bound j 12000 ltac:(lia)) as Hmb.
  destruct c as [n p pos sc ini].
  cbn [switchDownCount pattern position sample_counter initialization_complete] in *.
  unfold card_after, SAMPLES_PER_HALF_BEAT in Hpos, Hsc, Hini.
  change (12 * 12000) with 144000 in *.
  unfold ProcessSample, HandleBootSequence.
  cbn [switchDownCount pattern position sample_counter initialization_complete].
  change (0 <? 0) with false. cbv iota.
  assert (match p with
          | Some _ => mkCard n p pos sc ini
          | None => mkCard n (Some pat) pos sc ini
          end = mkCard n (Some pat) pos sc ini) as ->
    by (destruct Hp as [-> | ->]; reflexivity).
  cbn [switchDownCount pattern position sample_counter initialization_complete].
  change (0 <? 0) with false. cbv iota.
  unfold startup_step, card_after, SAMPLES_PER_HALF_BEAT.
  change (12 * 12000) with 144000.
  destruct (Z.ltb_spec j 144000) as [Hlt|Hge];
    cbn [position sample_counter initialization_complete] in Hpos, Hsc, Hini;
    subst pos sc ini; cbn [negb].
  - replace (j + 1 <=? 144000) with true by (symmetry; apply Z.leb_le; lia).
    unfold HandleStartupPattern, SAMPLES_PER_HALF_BEAT.
    cbn [switchDownCount pattern position sample_counter initialization_complete].
    destruct (Z.leb_spec 12000 (j mod 12000 + 1)) as [Hwrap|Hin].
    + destruct (Hnext Hwrap) as [Hq Hr].
      destruct (Z.leb_spec 12 (j / 12000 + 1)) as [Hend|Hmid].
      * assert (j + 1 = 144000) as Hj1 by lia.
        rewrite Hj1. change (144000 <? 144000) with false.
        cbn [app]. do 2 f_equal. f_equal; lia.
      * replace (j + 1 <? 144000) with true by (symmetry; apply Z.ltb_lt; lia).
        replace (j / 12000 + 1 <? 12) with true by (symmetry; apply Z.ltb_lt; lia).
        rewrite Hq, Hr. reflexivity.
    + destruct (Hsame Hin) as [Hq Hr].
      replace (j + 1 <? 144000) with true by (symmetry; apply Z.ltb_lt; lia).
      replace (j / 12000 <? 12) with true by (symmetry; apply Z.ltb_lt; lia).
      rewrite Hq, Hr. reflexivity.
  - replace (j + 1 <=? 144000) with false by (symmetry; apply Z.leb_gt; lia).
    replace (j + 1 <? 144000) with false by (symmetry; apply Z.ltb_ge; lia).
    destruct (f s) as [s' o]. reflexivity.
Qed.

Lemma card_run_unheld xs : forall c s j,
  pattern_at pat j c -> 0 <= j ->
  let st := fst (card_run pat main (map (pair false) xs) c s) in
  pattern_at pat (j + Z.of_nat (length xs)) (fst st) /\
  (j + Z.of_nat (length xs) <= 144000 -> snd st = s).
Proof.
  induction xs as [|x xs IH]; intros c s j Hat Hj.
  - cbn. rewrite Z.add_0_r. auto.
  - cbn [map]. rewrite card_run_cons. cbv zeta. cbn [fst].
    rewrite (ProcessSample_unheld (main x) c s j Hat Hj).
    replace (j + Z.of_nat (length (x :: xs)))
      with (j + 1 + Z.of_nat (length xs)) by (cbn [length]; lia).
    destruct (Z.leb_spec (j + 1) 144000) as [Hle|Hgt]; cbn [fst snd].
    + apply IH; [apply pattern_at_card_after|lia].
    + destruct (IH (card_after pat (j + 1)) (fst (main x s)) (j + 1)
                   (pattern_at_card_after _) ltac:(lia)) as [H1 _].
      split; [exact H1|]. intros H. lia.
Qed.

Lemma pattern_at_init : pattern_at pat 0 card_init.
Proof. unfold pattern_at, card_init, card_after. cbn. auto 10 with zarith. Qed.

(** X13.  With the switch never down, the startup pattern takes exactly
    144000 samples from power-up.  The n-th sample shows note
    n / 12000 of the pattern (so the first note is shown for 11999
    samples and each later one for 12000); the 144000th switches all
    LEDs off and ends the pattern; until then the derived class is not
    run at all, and from sample 144001 on every sample is handed to its
    [ProcessMainSample] and touches no LED itself. *)
Theorem startup_schedule xs x s :
  let n := Z.of_nat (length xs) + 1 in
  let st := fst (card_run pat main (map (pair false) xs) card_init s) in
  let r := ProcessSample pat (main x) false (fst st) (snd st) in
  fst (fst r) = card_after pat n /\
  (n <= 144000 -> snd (fst r) = s /\ snd r = startup_step pat n) /\
  (144000 < n ->
     snd (fst r) = fst (main x (snd st)) /\
     snd r = ([], MainRan (snd (main x (snd st))))).
Proof.
  intros n st r.
  destruct (card_run_unheld xs card_init s 0 pattern_at_init ltac:(lia))
    as [Hat Hs].
  fold st in Hat, Hs. rewrite Z.add_0_l in Hat, Hs.
  subst r. rewrite (ProcessSample_unheld (main x) _ _ _ Hat ltac:(lia)).
  fold n. destruct (Z.leb_spec n 144000) as [Hle|Hgt]; cbn [fst snd].
  - split; [reflexivity|]. split; [|lia].
    intros _. split; [apply Hs; lia|reflexivity].
  - split; [reflexivity|]. split; [lia|]. auto.
Qed.

Lemma card_run_main ins : forall c s j k leds o,
  pattern_at pat j c -> 0 <= j ->
  snd (card_run pat main ins c s) !! k = Some (leds, MainRan o) ->
  (exists x, ins !! k = Some (false, x)) /\
  144000 < j + unheld (take (Datatypes.S k) ins).
Proof.
  induction ins as [|[d x] ins IH]; intros c s j k leds o Hat Hj Hk;
    [discriminate Hk|].
  rewrite card_run_cons in Hk. cbv zeta in Hk. cbn [snd] in Hk.
  destruct d.
  - pose proof Hat as (Hc & Hp & Hpos & Hsc & Hini).
    rewrite ProcessSample_down in Hk by exact Hc. cbn [fst snd] in Hk.
    destruct k as [|k]; cbn [lookup list_lookup] in Hk.
    + unfold hold_output in Hk. injection Hk as _ Hk.
      destruct (96000 <=? _); discriminate Hk.
    + apply IH with (j := j) in Hk; [|  |exact Hj].
      * destruct Hk as [Hx Hn]. split; [exact Hx|].
        unfold unheld in *. cbn [take List.filter fst negb] in *. exact Hn.
      * unfold pattern_at, set_switchDownCount, with_pattern.
        destruct c as [n p pos sc ini].
        cbn [switchDownCount pattern position sample_counter
             initialization_complete] in *.
        destruct p;
          cbn [switchDownCount pattern position sample_counter
               initialization_complete];
          repeat split; auto; lia.
  - rewrite (ProcessSample_unheld (main x) c s j Hat Hj) in Hk.
    destruct k as [|k]; cbn [lookup list_lookup] in Hk.
    + destruct (Z.leb_spec (j + 1) 144000) as [Hle|Hgt]; cbn [fst snd] in Hk.
      * unfold startup_step in Hk.
        destruct (_ <? _); discriminate Hk.
      * split; [eexists; reflexivity|].
        unfold unheld. cbn [take List.filter fst negb length]. lia.
    + assert (exists c1 s1, fst (if j + 1 <=? 144000
                then (card_after pat (j + 1), s, startup_step (O := Out) pat (j + 1))
                else (card_after pat (j + 1), fst (main x s),
                      ([], MainRan (snd (main x s))))) = (c1, s1)
              /\ c1 = card_after pat (j + 1)) as (c1 & s1 & Heq & ->)
        by (destruct (j + 1 <=? 144000); do 2 eexists; split; reflexivity).
      rewrite Heq in Hk. cbn [fst snd] in Hk.
      apply IH with (j := j + 1) in Hk;
        [|apply pattern_at_card_after|lia].
      destruct Hk as [Hx Hn]. split; [exact Hx|].
      unfold unheld in *. cbn [take List.filter fst negb length] in *. lia.
Qed.

End StartupPattern.

(** * The bridge as the card library runs it *)

Lemma filter_map_length {A B} (p : B -> bool) (f : A -> B) l :
  length (List.filter p (map f l)) = length (List.filter (fun a => p (f a)) l).
Proof.
  induction l as [|a l IH]; [reflexivity|].
  cbn [map List.filter]. destruct (p (f a)); cbn [length]; now rewrite IH.
Qed.

(** X14.  [ProcessMainSample] runs only when the card lets it: in any
    run of the bridge, a sample at which it ran (outputs driven, report
    counter advanced) is one where the switch was not in the [Down]
    position, and more than 144000 samples with the switch not down had
    passed since power-up, that sample included.  While the switch is
    down or the startup pattern plays, the targets are not applied and
    no report is published. *)
Theorem bridge_samples_only_when_running Down probe hws c s j k leds o :
  pattern_at kBridgePattern j c -> 0 <= j ->
  snd (bridge_run Down probe hws c s) !! k = Some (leds, MainRan o) ->
  exists hw,
    hws !! k = Some hw /\ SwitchVal hw <> Down /\
    144000 < j + Z.of_nat (length (List.filter
                                     (fun hw => negb (SwitchVal hw =? Down))
                                     (take (Datatypes.S k) hws))).
Proof.
  intros Hat Hj Hk. unfold bridge_run in Hk.
  apply (card_run_main kBridgePattern (bridge_main probe) _ c s j k leds o Hat Hj)
    in Hk as [[x Hx] Hn].
  rewrite list_lookup_fmap in Hx.
  destruct (hws !! k) as [hw|] eqn:Hhw; [|discriminate Hx].
  cbn in Hx. injection Hx as Hsw _.
  exists hw. split; [reflexivity|]. split; [now apply Z.eqb_neq|].
  unfold unheld in Hn.
  change (take (Datatypes.S k) (map (fun hw => (SwitchVal hw =? Down, hw)) hws))
    with (take (Datatypes.S k) ((fun hw => (SwitchVal hw =? Down, hw)) <$> hws)) in Hn.
  rewrite <- fmap_take in Hn.
  change ((fun hw => (SwitchVal hw =? Down, hw)) <$> take (Datatypes.S k) hws)
    with (map (fun hw => (SwitchVal hw =? Down, hw)) (take (Datatypes.S k) hws)) in Hn.
  rewrite filter_map_length in Hn. exact Hn.
Qed.

Lemma bridge_samples_only_when_running_witness :
  let up := mkHw 0 0 0 0 0 0 0 false false 2 (fun _ => true) in
  let down := mkHw 0 0 0 0 0 0 0 false false 0 (fun _ => true) in
  let c := card_after kBridgePattern 143999 in
  exists o,
    snd (bridge_run 0 false [up; down; up] c (0, shared_init)) !! 2%nat
      = Some ([], MainRan o) /\
    SwitchVal up <> 0.
Proof.
  intros up down c.
  eexists. split; [vm_compute; reflexivity|].
  destruct (bridge_samples_only_when_running 0 false [up; down; up] c
              (0, shared_init) 143999 2%nat []
              (snd (ProcessMainSample false up 0 shared_init)))
    as (hw & Hhw & Hsw & _).
  - apply pattern_at_card_after.
  - lia.
  - vm_compute. reflexivity.
  - cbn in Hhw. injection Hhw as <-. exact Hsw.
Defined.
